(** * KindleClippings: the clipping parser and the highlight filter

    A shallow embedding of [src/clippings_parser.py] (the text stage:
    [parse_clippings], [remove_chars]) and of the part of
    [src/pdf_helpers.py] that prepares the highlights for rendering
    ([extract_date_and_time], [calculate_similarity],
    [filter_repeated_highlights], [create_df_from_highlights_list]).

    Conventions of the embedding.
    - A Python [str] is a sequence of Unicode code points: [list N].
    - Python exceptions are values of [exn]; a function that can raise
      returns a [result].
    - The file system is explicit state: the decoded text of the source
      file and the finite map from file names to decoded text of the
      destination directory, threaded through a state-and-error monad.
    - The float arithmetic of [calculate_similarity] is binary64, as in
      CPython, through the kernel's primitive floats. *)

From Stdlib Require Import ZArith NArith Lia Floats Uint63.
From stdpp Require Import gmap list strings.

Abbreviation char := N.
Abbreviation text := (list N).

(** ** Python strings *)

(** A literal of the source, code point by code point. *)
Fixpoint str (s : string) : text :=
  match s with
  | EmptyString => []
  | String a s' => Ascii.N_of_ascii a :: str s'
  end.

Definition NL : char := 10%N.          (* "\n" *)
Definition SP : char := 32%N.          (* " " *)
Definition BOM : char := 65279%N.      (* U+FEFF, the byte-order mark *)

Definition chr_eqb (a b : char) : bool := N.eqb a b.

(** [s.startswith(p)] *)
Definition startswith (p s : text) : bool := bool_decide (take (length p) s = p).

(** [sub in s] *)
Fixpoint contains (sub s : text) : bool :=
  startswith sub s
  || match s with
     | [] => false
     | _ :: s' => contains sub s'
     end.

(** [s.split(sep)] for a non-empty [sep]: the pieces between the
    non-overlapping occurrences of [sep], found from the left.  [skip]
    counts the characters of a separator found earlier that are still
    to be passed over, [cur] is the current piece, reversed. *)
Fixpoint split_go (sep : text) (skip : nat) (cur : text) (s : text) : list text :=
  match s with
  | [] => [reverse cur]
  | c :: s' =>
      match skip with
      | S k => split_go sep k cur s'
      | O =>
          if startswith sep s
          then reverse cur :: split_go sep (length sep - 1) [] s'
          else split_go sep 0 (c :: cur) s'
      end
  end.

Definition split (sep s : text) : list text := split_go sep 0 [] s.

(** Length of the longest prefix whose characters all satisfy [p]. *)
Fixpoint span_len (p : char → bool) (s : text) : nat :=
  match s with
  | c :: s' => if p c then S (span_len p s') else 0
  | [] => 0
  end.

(** [re.sub(pattern, repl, s)] for a pattern that never matches the
    empty string.  The matcher [m] tries the pattern at the start of
    its argument and, on success, gives the replacement text and the
    length (at least 1) of the match; matches are found from the left
    and do not overlap. *)
Fixpoint re_sub_go (m : text → option (text * nat)) (skip : nat) (s : text) : text :=
  match s with
  | [] => []
  | c :: s' =>
      match skip with
      | S k => re_sub_go m k s'
      | O =>
          match m s with
          | Some (repl, n) => repl ++ re_sub_go m (n - 1) s'
          | None => c :: re_sub_go m 0 s'
          end
      end
  end.

Definition re_sub (m : text → option (text * nat)) (s : text) : text :=
  re_sub_go m 0 s.

(** ** Unicode character classes

    [re] classifies the characters of a [str] pattern with the Unicode
    database, which is not part of the program.  The ASCII range is
    written out; the classification of the code points from 128 on is a
    parameter of the development. *)
Class Unicode := {
  uni_isalnum : char → bool;          (* str.isalnum, code points >= 128 *)
  uni_isspace : char → bool;          (* str.isspace, code points >= 128 *)
  uni_decimal : char → option nat;    (* value of a decimal digit (Nd), >= 128 *)
}.

Definition between (lo hi c : char) : bool := (lo <=? c)%N && (c <=? hi)%N.

Definition ascii_lower (c : char) : bool := between 97 122 c.   (* a-z *)
Definition ascii_upper (c : char) : bool := between 65 90 c.    (* A-Z *)
Definition ascii_digit (c : char) : bool := between 48 57 c.    (* 0-9 *)

(** The ASCII characters for which [str.isspace] holds: TAB, LF, VT, FF,
    CR, the separators FS, GS, RS, US and the space. *)
Definition ascii_space (c : char) : bool := between 9 13 c || between 28 32 c.

Section Classes.
Context `{U : Unicode}.

(** Value of a decimal digit. *)
Definition decimal (c : char) : option nat :=
  if (c <? 128)%N
  then (if ascii_digit c then Some (N.to_nat (c - 48)) else None)
  else uni_decimal c.

(** [\d] *)
Definition re_d (c : char) : bool := bool_decide (is_Some (decimal c)).

(** [\s] *)
Definition re_s (c : char) : bool :=
  if (c <? 128)%N then ascii_space c else uni_isspace c.

(** [\w]: alphanumeric or underscore. *)
Definition re_w (c : char) : bool :=
  if (c <? 128)%N
  then ascii_lower c || ascii_upper c || ascii_digit c || chr_eqb c 95
  else uni_isalnum c.

(** ** The title sanitizer, [remove_chars] *)

(** [" *: *"] replaced by [" - "]. *)
Definition m_colon (s : text) : option (text * nat) :=
  let k := span_len (chr_eqb SP) s in
  match drop k s with
  | c :: r =>
      if chr_eqb c 58
      then Some (str " - ", k + 1 + span_len (chr_eqb SP) r)
      else None
  | [] => None
  end.

(** [s.replace("?", "").replace("&", "and")] *)
Definition replace_marks (s : text) : text :=
  let s := filter (λ c, c ≠ 63%N) s in
  mjoin ((λ c, if chr_eqb c 38 then str "and" else [c]) <$> s).

(** Index of the [")"] that closes [".+?"] when the pattern is tried
    at the start of [r ++ ...] with [n] characters of the group
    already taken: the dot does not match a newline. *)
Fixpoint lazy_close (n : nat) (r : text) : option nat :=
  match r with
  | [] => None
  | c :: r' =>
      if chr_eqb c 41 then Some n
      else if chr_eqb c NL then None
      else lazy_close (S n) r'
  end.

(** ["\((.+?)\)"] replaced by ["- \1"]. *)
Definition m_paren (s : text) : option (text * nat) :=
  match s with
  | c :: c1 :: r =>
      if chr_eqb c 40 && negb (chr_eqb c1 NL)
      then match lazy_close 1 r with
           | Some n => Some (str "- " ++ take n (c1 :: r), n + 2)
           | None => None
           end
      else None
  | _ => None
  end.

(** The characters kept by ["[^a-zA-Z\d\s\w;,_-]+"]. *)
Definition filename_char (c : char) : bool :=
  ascii_lower c || ascii_upper c || re_d c || re_s c || re_w c
  || chr_eqb c 59 || chr_eqb c 44 || chr_eqb c 95 || chr_eqb c 45.

(** ["[^a-zA-Z\d\s\w;,_-]+"] replaced by [""]. *)
Definition m_special (s : text) : option (text * nat) :=
  match span_len (λ c, negb (filename_char c)) s with
  | O => None
  | n => Some ([], n)
  end.

(** ["^\W+|\W+$"] replaced by [""]: the run of non-word characters at
    the start and the one at the end are removed. *)
Definition trim_nonword (s : text) : text :=
  let s := drop (span_len (λ c, negb (re_w c)) s) s in
  reverse (drop (span_len (λ c, negb (re_w c)) (reverse s)) (reverse s)).

(** [s[:n]] for an integer [n] that may be negative. *)
Definition slice_to (n : Z) (s : text) : text :=
  if (0 <=? n)%Z then take (Z.to_nat n) s
  else take (length s - Z.to_nat (- n)) s.

Definition remove_chars (s output_directory : text) : text :=
  let s := re_sub m_colon s in
  let s := replace_marks s in
  let s := re_sub m_paren s in
  let s := re_sub m_special s in
  let s := trim_nonword s in
  let max_length := (245 - Z.of_nat (length output_directory))%Z in
  slice_to max_length s.

End Classes.

(** ** Exceptions *)

Inductive exn : Set :=
  | IOError               (* raised by [parse_clippings] itself *)
  | FileNotFoundError
  | FileExistsError
  | IndexError
  | ValueError
  | ZeroDivisionError.

Inductive result (A : Type) : Type :=
  | Ok (a : A)
  | Raise (e : exn).
Arguments Ok {A} a.
Arguments Raise {A} e.

(** ** The file system

    The program touches two places: the source file and the files of
    the output directory.  [source] is the text that reading the source
    file gives ([None] when the path is not an existing file),
    [directory] maps the name of every file of the output directory to
    the text that reading it gives ([None] when the directory does not
    exist).  A sanitized file name has no path separator, so the path
    [os.path.join(output_directory, name)] is the entry [name] of the
    directory.  Text is stored decoded: the encoding is taken to
    represent every character that is written, as the default, utf-8,
    does.  [trace] records the operations performed, latest first. *)

Inductive mode : Set := ModeW | ModeA.

Inductive io_op : Type :=
  | OpMakedirs
  | OpListdir
  | OpReadSource
  | OpRead (name : text)
  | OpOpen (name : text) (m : mode)
  | OpWrite (name : text) (data : text).

Record world : Type := World {
  source : option text;
  directory : option (gmap text text);
  trace : list io_op;
}.

(** State and exceptions. *)
Definition M (A : Type) : Type := world → world * result A.

#[global] Instance M_ret : MRet M := λ A a w, (w, Ok a).
#[global] Instance M_bind : MBind M := λ A B f m w,
  match m w with
  | (w', Ok a) => f a w'
  | (w', Raise e) => (w', Raise e)
  end.

Definition raise {A} (e : exn) : M A := λ w, (w, Raise e).

Definition log (op : io_op) (w : world) : world :=
  World (source w) (directory w) (op :: trace w).

Definition set_directory (d : gmap text text) (w : world) : world :=
  World (source w) (Some d) (trace w).

(** [os.path.isfile(source_file)] *)
Definition os_path_isfile : M bool :=
  λ w, (w, Ok (bool_decide (is_Some (source w)))).

(** [os.path.exists(output_directory)]: the empty path never exists. *)
Definition os_path_exists (output_directory : text) : M bool :=
  λ w, (w, Ok (bool_decide (output_directory ≠ []) && bool_decide (is_Some (directory w)))).

(** [os.makedirs(output_directory)] *)
Definition os_makedirs (output_directory : text) : M () :=
  λ w,
    if bool_decide (output_directory = []) then (w, Raise FileNotFoundError)
    else match directory w with
         | Some _ => (w, Raise FileExistsError)
         | None => (log OpMakedirs (set_directory ∅ w), Ok ())
         end.

(** [io.open(source_file, "r", ...)] followed by [f.read()] *)
Definition read_source : M text :=
  λ w,
    match source w with
    | Some t => (log OpReadSource w, Ok t)
    | None => (w, Raise FileNotFoundError)
    end.

(** [os.listdir(output_directory)] *)
Definition os_listdir : M (gset text) :=
  λ w,
    match directory w with
    | Some d => (log OpListdir w, Ok (dom d))
    | None => (w, Raise FileNotFoundError)
    end.

(** [io.open(path, "r", ...)] followed by [textfile.read()] *)
Definition read_file (name : text) : M text :=
  λ w,
    match directory w with
    | Some d =>
        match d !! name with
        | Some t => (log (OpRead name) w, Ok t)
        | None => (w, Raise FileNotFoundError)
        end
    | None => (w, Raise FileNotFoundError)
    end.

(** [io.open(path, mode, ...)]: ["w"] creates the file or empties it,
    ["a"] creates it when it is missing. *)
Definition open_file (name : text) (m : mode) : M () :=
  λ w,
    match directory w with
    | Some d =>
        let d' :=
          match m with
          | ModeW => <[name := []]> d
          | ModeA => match d !! name with Some _ => d | None => <[name := []]> d end
          end in
        (log (OpOpen name m) (set_directory d' w), Ok ())
    | None => (w, Raise FileNotFoundError)
    end.

(** [outfile.write(data)] on a file opened by [open_file]: the data
    goes to the end of the file. *)
Definition file_write (name : text) (data : text) : M () :=
  λ w,
    match directory w with
    | Some d =>
        (log (OpWrite name data)
           (set_directory (<[name := default [] (d !! name) ++ data]> d) w), Ok ())
    | None => (w, Raise FileNotFoundError)
    end.

(** [os.path.join(a, p)] on a POSIX system. *)
Definition os_path_join (a p : text) : text :=
  if startswith (str "/") p then p
  else if bool_decide (a = []) || bool_decide (last a = Some 47%N) then a ++ p
  else a ++ str "/" ++ p.

(** [l[i]] *)
Definition index {A} (l : list A) (i : nat) : M A :=
  match l !! i with
  | Some x => mret x
  | None => raise IndexError
  end.

(** [for x in xs: s = body(s, x)] *)
Fixpoint for_each {A S : Type} (body : S → A → M S) (xs : list A) (s : S) : M S :=
  match xs with
  | [] => mret s
  | x :: xs' => s' ← body s x; for_each body xs' s'
  end.

(** ** The text stage, [parse_clippings] *)

Section Parser.
Context `{U : Unicode}.
Variable output_directory : text.
Variable include_clip_meta : bool.

(** The record written for a clipping. *)
Definition write_clipping (name clipping_text clip_meta : text) : M () :=
  file_write name (clipping_text ++ [NL]);;
  (if include_clip_meta then file_write name (clip_meta ++ [NL]) else mret ());;
  file_write name ([NL] ++ str "..." ++ [NL; NL]).

(** The body of the loop over the chunks; the state of the loop is
    the set [output_files]. *)
Definition process_highlight (output_files : gset text) (highlight : text)
    : M (gset text) :=
  let lines := tail (split [NL] highlight) in
  if (length lines <? 3)%nat then mret output_files
  else
    body ← index lines 3;
    if bool_decide (body = []) then mret output_files
    else
      title ← index lines 0;
      first ← index title 0;
      let title := if chr_eqb first BOM then drop 1 title else title in
      let outfile_name := remove_chars title output_directory ++ str ".txt" in
      let path := os_path_join output_directory outfile_name in
      listing ← os_listdir;
      '(m, output_files, current_text) ←
        (if bool_decide (outfile_name ∉ output_files)
            && bool_decide (outfile_name ∉ listing)
         then mret (ModeW, {[path]} ∪ output_files, [])
         else current_text ← read_file outfile_name;
              mret (ModeA, output_files, current_text));
      clipping_text ← index lines 3;
      clip_meta ← index lines 1;
      open_file outfile_name m;;
      (if negb (contains clipping_text current_text)
       then write_clipping outfile_name clipping_text clip_meta
       else mret ());;
      mret output_files.

Definition parse_clippings : M (gset text) :=
  isfile ← os_path_isfile;
  if negb isfile then raise IOError
  else
    present ← os_path_exists output_directory;
    (if negb present then os_makedirs output_directory else mret ());;
    content ← read_source;
    let highlight_chunks := split (str "==========") content in
    for_each process_highlight highlight_chunks ∅.

(** *** The loop, read as a function on the directory

    What [process_highlight] does depends on the chunk only through
    three cases: the chunk is passed over, indexing it raises, or it is
    a clipping for a file name. *)

Inductive chunk : Type :=
  | Skipped
  | Malformed
  | Clipping (outfile_name clipping_text clip_meta : text).

Definition classify (highlight : text) : chunk :=
  let lines := tail (split [NL] highlight) in
  if (length lines <? 3)%nat then Skipped
  else
    match lines !! 3 with
    | None => Malformed
    | Some body =>
        if bool_decide (body = []) then Skipped
        else
          match lines !! 0, lines !! 1 with
          | Some (first :: rest), Some clip_meta =>
              let title := if chr_eqb first BOM then rest else first :: rest in
              Clipping (remove_chars title output_directory ++ str ".txt") body clip_meta
          | _, _ => Malformed
          end
    end.

(** The text appended for a clipping. *)
Definition entry (clipping_text clip_meta : text) : text :=
  clipping_text ++ [NL]
  ++ (if include_clip_meta then clip_meta ++ [NL] else [])
  ++ [NL] ++ str "..." ++ [NL; NL].

Definition pure_step (output_files : gset text) (d : gmap text text) (highlight : text)
    : gmap text text * result (gset text) :=
  match classify highlight with
  | Skipped => (d, Ok output_files)
  | Malformed => (d, Raise IndexError)
  | Clipping name body clip_meta =>
      if bool_decide (name ∉ output_files) && bool_decide (name ∉ dom d)
      then (<[name := entry body clip_meta]> d,
            Ok ({[os_path_join output_directory name]} ∪ output_files))
      else
        match d !! name with
        | None => (d, Raise FileNotFoundError)
        | Some current_text =>
            (if contains body current_text then d
             else <[name := current_text ++ entry body clip_meta]> d,
             Ok output_files)
        end
  end.

Fixpoint pure_loop (output_files : gset text) (d : gmap text text) (chunks : list text)
    : gmap text text * result (gset text) :=
  match chunks with
  | [] => (d, Ok output_files)
  | h :: chunks' =>
      match pure_step output_files d h with
      | (d', Ok output_files') => pure_loop output_files' d' chunks'
      | (d', Raise e) => (d', Raise e)
      end
  end.

(** Files only grow: every file of [d] is in [d'], with text added at
    its end. *)
Definition grows (d d' : gmap text text) : Prop :=
  ∀ n t, d !! n = Some t → ∃ t', d' !! n = Some (t ++ t').

(** Every plain file name (no ["/"]) in [output_files] is a file of the
    directory. *)
Definition names_known (output_files : gset text) (d : gmap text text) : Prop :=
  ∀ n, 47%N ∉ n → n ∈ output_files → n ∈ dom d.

(** The chunk has nothing left to add to the directory. *)
Definition absorbed (d : gmap text text) (highlight : text) : Prop :=
  match classify highlight with
  | Clipping name body _ => ∃ t, d !! name = Some t ∧ contains body t = true
  | _ => True
  end.

(** The paths of the files of [d'] that are not files of [d]. *)
Definition created (d d' : gmap text text) : gset text :=
  set_map (os_path_join output_directory) (dom d' ∖ dom d).

End Parser.

(** The files of the output directory, none when it does not exist. *)
Definition files (w : world) : gmap text text := default ∅ (directory w).

(** The instance used to evaluate the program on ASCII text: no code
    point from 128 on is alphanumeric, a space or a digit. *)
Definition ascii_only : Unicode :=
  {| uni_isalnum := λ _, false; uni_isspace := λ _, false; uni_decimal := λ _, None |}.


(** ** Results of functions without state *)

#[global] Instance result_ret : MRet result := λ A a, Ok a.
#[global] Instance result_bind : MBind result := λ A B f m,
  match m with
  | Ok a => f a
  | Raise e => Raise e
  end.

(** [[f(x) for x in xs]]: the first exception ends the evaluation. *)
Fixpoint map_result {A B : Type} (f : A → result B) (xs : list A) : result (list B) :=
  match xs with
  | [] => Ok []
  | x :: xs' => y ← f x; ys ← map_result f xs'; mret (y :: ys)
  end.

(** ** Dates: [datetime.datetime] *)

Record datetime : Set := Datetime {
  year : nat; month : nat; day : nat;
  hour : nat; minute : nat; second : nat;
}.

Definition is_leap (y : nat) : bool :=
  ((y mod 4 =? 0) && negb (y mod 100 =? 0)) || (y mod 400 =? 0).

Definition days_in_month (y m : nat) : nat :=
  match m with
  | 2 => if is_leap y then 29 else 28
  | 4 | 6 | 9 | 11 => 30
  | _ => 31
  end.

(** Days of the year before the first of month [m]. *)
Definition days_before_month (y m : nat) : nat :=
  sum_list ((days_in_month y) <$> seq 1 (m - 1)).

(** Days before the first of January of year [y], from 0001-01-01. *)
Definition days_before_year (y : nat) : Z :=
  let p := (Z.of_nat y - 1)%Z in (p * 365 + p / 4 - p / 100 + p / 400)%Z.

(** [date.toordinal()] *)
Definition toordinal (t : datetime) : Z :=
  (days_before_year (year t)
   + Z.of_nat (days_before_month (year t) (month t)) + Z.of_nat (day t))%Z.

(** Seconds from 0001-01-01T00:00:00, less one day. *)
Definition seconds (t : datetime) : Z :=
  (toordinal t * 86400
   + Z.of_nat (hour t) * 3600 + Z.of_nat (minute t) * 60 + Z.of_nat (second t))%Z.

(** ** Timestamps: [extract_date_and_time]

    [datetime.strptime] turns its format into a regular expression,
    matches it at the start of the string ignoring case, asks that
    nothing is left, and builds the date.  The regular expression is
    modelled by its elements: a group of alternatives, each a sequence
    of character classes; [\s+]; a literal character; a group of
    alternative words.  Alternatives are tried in order and [\s+] takes
    the longest run first, the rest of the expression deciding, as a
    backtracking matcher does. *)

Inductive re_elem : Type :=
  | ReAlt (alts : list (list (char → bool)))
  | ReSpaces
  | ReLit (c : char)
  | ReWords (words : list text).

Fixpoint match_classes (cls : list (char → bool)) (s : text) : option (text * text) :=
  match cls with
  | [] => Some ([], s)
  | p :: cls' =>
      match s with
      | c :: s' =>
          if p c
          then match match_classes cls' s' with
               | Some (tok, r) => Some (c :: tok, r)
               | None => None
               end
          else None
      | [] => None
      end
  end.

(** The lower-case form of an ASCII letter. *)
Definition ascii_tolower (c : char) : char :=
  if ascii_upper c then (c + 32)%N else c.

(** A lower-case ASCII word matched ignoring case. *)
Fixpoint match_word (w : text) (s : text) : option (text * text) :=
  match w with
  | [] => Some ([], s)
  | p :: w' =>
      match s with
      | c :: s' =>
          if chr_eqb (ascii_tolower c) p
          then match match_word w' s' with
               | Some (tok, r) => Some (c :: tok, r)
               | None => None
               end
          else None
      | [] => None
      end
  end.

Fixpoint first_some {A B : Type} (f : A → option B) (l : list A) : option B :=
  match l with
  | [] => None
  | x :: l' => match f x with Some y => Some y | None => first_some f l' end
  end.

(** [f n], [f (n - 1)], ..., [f 1]: the first that succeeds. *)
Fixpoint longest_first {B : Type} (n : nat) (f : nat → option B) : option B :=
  match n with
  | O => None
  | S k => match f n with Some y => Some y | None => longest_first k f end
  end.

Section Strptime.
Context `{U : Unicode}.

(** The groups matched so far are in [caps], latest first. *)
Fixpoint re_match (p : list re_elem) (s : text) (caps : list text)
    : option (list text * text) :=
  match p with
  | [] => Some (caps, s)
  | ReAlt alts :: p' =>
      first_some
        (λ a, match match_classes a s with
              | Some (tok, r) => re_match p' r (tok :: caps)
              | None => None
              end) alts
  | ReSpaces :: p' =>
      longest_first (span_len re_s s) (λ n, re_match p' (drop n s) caps)
  | ReLit c :: p' =>
      match s with
      | c' :: r => if chr_eqb c c' then re_match p' r caps else None
      | [] => None
      end
  | ReWords words :: p' =>
      first_some
        (λ w, match match_word w s with
              | Some (tok, r) => re_match p' r (tok :: caps)
              | None => None
              end) words
  end.

Definition is_chr (a : char) : char → bool := chr_eqb a.

(** [%d]: [3[0-1]|[1-2]\d|0[1-9]|[1-9]| [1-9]] *)
Definition re_day : re_elem :=
  ReAlt [[is_chr 51; between 48 49]; [between 49 50; re_d]; [is_chr 48; between 49 57];
         [between 49 57]; [is_chr 32; between 49 57]].

(** [%B]: the month names of the C locale, the longest first. *)
Definition re_month : re_elem :=
  ReWords (str <$> ["september"; "february"; "november"; "december"; "january";
                    "october"; "august"; "march"; "april"; "june"; "july"; "may"]).

(** [%Y]: [\d\d\d\d] *)
Definition re_year : re_elem := ReAlt [[re_d; re_d; re_d; re_d]].

(** [%H]: [2[0-3]|[0-1]\d|\d] *)
Definition re_hour : re_elem :=
  ReAlt [[is_chr 50; between 48 51]; [between 48 49; re_d]; [re_d]].

(** [%M]: [[0-5]\d|\d] *)
Definition re_minute : re_elem := ReAlt [[between 48 53; re_d]; [re_d]].

(** [%S]: [6[0-1]|[0-5]\d|\d] *)
Definition re_second : re_elem :=
  ReAlt [[is_chr 54; between 48 49]; [between 48 53; re_d]; [re_d]].

(** The expression for the format ["%d %B %Y %H:%M:%S"]. *)
Definition date_time_re : list re_elem :=
  [re_day; ReSpaces; re_month; ReSpaces; re_year; ReSpaces;
   re_hour; ReLit 58; re_minute; ReLit 58; re_second].

(** [int(tok)] for a matched group: the decimal digits give the value,
    the space that [%d] allows before a digit is passed over. *)
Definition int_of (tok : text) : nat :=
  foldl (λ acc c, match decimal c with Some v => 10 * acc + v | None => acc end) 0 tok.

Definition month_names : list text :=
  str <$> ["january"; "february"; "march"; "april"; "may"; "june"; "july";
           "august"; "september"; "october"; "november"; "december"].

(** The number of the month named [tok], from 1. *)
Definition month_number (tok : text) : option nat :=
  S <$> (fst <$> list_find (λ w, w = (ascii_tolower <$> tok)) month_names).

(** [datetime.datetime.strptime(s, "%d %B %Y %H:%M:%S")] *)
Definition strptime (s : text) : result datetime :=
  match re_match date_time_re s [] with
  | Some ([tS; tM; tH; tY; tB; td], []) =>
      match month_number tB with
      | Some m =>
          let y := int_of tY in
          let d := int_of td in
          let sec := int_of tS in
          if (1 <=? y) && (d <=? days_in_month y m) && (sec <=? 59)
          then Ok (Datetime y m d (int_of tH) (int_of tM) sec)
          else Raise ValueError
      | None => Raise ValueError
      end
  | _ => Raise ValueError
  end.

(** [a, b = l] *)
Definition unpack2 {A : Type} (l : list A) : result (A * A) :=
  match l with
  | [a; b] => Ok (a, b)
  | _ => Raise ValueError
  end.

(** [l[i]] *)
Definition item {A : Type} (l : list A) (i : nat) : result A :=
  match l !! i with
  | Some x => Ok x
  | None => Raise IndexError
  end.

Definition extract_date_and_time (string : text) : result datetime :=
  date_and_time_str ← item (split (str "Added on ") string) 1;
  '(_, date_time_str) ← unpack2 (split (str ", ") date_and_time_str);
  strptime date_time_str.

End Strptime.

(** ** Similarity: [calculate_similarity] *)

Definition min3 (a b c : nat) : nat := a `min` (b `min` c).

(** The character-level Levenshtein distance, by its recurrence. *)
Fixpoint lev (s t : text) : nat :=
  match s with
  | [] => length t
  | a :: s' =>
      (fix lev_s (t : text) : nat :=
         match t with
         | [] => length s
         | b :: t' =>
             min3 (S (lev s' t)) (S (lev_s t'))
                  ((if chr_eqb a b then 0 else 1) + lev s' t')
         end) t
  end.

(** One row of the table of distances: from the distances of [s'] to
    the suffixes of [t] (in [prev]), those of [a :: s']. *)
Fixpoint lev_row (a : char) (t : text) (prev : list nat) : list nat :=
  match t, prev with
  | b :: t', p :: prev' =>
      let rest := lev_row a t' prev' in
      min3 (S p) (S (default 0 (head rest)))
           ((if chr_eqb a b then 0 else 1) + default 0 (head prev')) :: rest
  | _, p :: _ => [S p]
  | _, [] => []
  end.

(** The distances of the empty string to the suffixes of [t]. *)
Fixpoint lev_row0 (t : text) : list nat :=
  match t with
  | [] => [0]
  | _ :: t' => length t :: lev_row0 t'
  end.

(** [Levenshtein.distance(s, t)], computed row by row. *)
Definition distance (s t : text) : nat :=
  default 0 (head (foldr (λ a prev, lev_row a t prev) (lev_row0 t) s)).

Definition float_of_nat (n : nat) : float :=
  PrimFloat.of_uint63 (Uint63.of_Z (Z.of_nat n)).

(** A missing value is [None]. *)
Definition calculate_similarity (string1 string2 : option text) : result float :=
  match string1, string2 with
  | Some string1, Some string2 =>
      let distance := distance string1 string2 in
      let longest := length string1 `max` length string2 in
      if (longest =? 0)%nat then Raise ZeroDivisionError
      else Ok (1 - float_of_nat distance / float_of_nat longest)%float
  | _, _ => Ok 0%float
  end.

(** ** The table of highlights: [filter_repeated_highlights]

    The data frame is the list of its rows, in index order; a column is
    the list of its values.  [shift(-1)] moves a column up by one row
    and leaves a missing value in the last row. *)

Record row : Type := Row {
  highlight : text;
  meta : text;
  date : datetime;
}.

Definition shift_up {A : Type} (column : list A) : list (option A) :=
  match column with
  | [] => []
  | _ :: column' => (Some <$> column') ++ [None]
  end.

(** The rows whose mark in [drop_marks] is not set. *)
Fixpoint unmarked {A : Type} (rows : list A) (drop_marks : list bool) : list A :=
  match rows, drop_marks with
  | r :: rows', b :: marks' => if b then unmarked rows' marks' else r :: unmarked rows' marks'
  | _, _ => []
  end.

(** [df.apply(f, axis=1)]: the series of the results of [f] on the rows.
    On a frame without rows [f] is not called and the result is a
    frame, not a series; setting it as the one column ["correlaton"]
    raises [ValueError]. *)
Definition apply_rows {A B : Type} (f : A → result B) (rows : list A) : result (list B) :=
  match rows with
  | [] => Raise ValueError
  | _ :: _ => map_result f rows
  end.

Definition filter_repeated_highlights (df_highlights : list row) : result (list row) :=
  let next_highlight := shift_up (highlight <$> df_highlights) in
  correlaton ←
    apply_rows (λ x, calculate_similarity (Some x.1) x.2)
               (zip (highlight <$> df_highlights) next_highlight);
  let time_diff :=
    zip_with (λ next d, (λ n, seconds n - seconds d)%Z <$> next)
             (shift_up (date <$> df_highlights)) (date <$> df_highlights) in
  let correlaton_greater := (λ c, 0x1.3333333333333p-2 <? c)%float <$> correlaton in
  let time_diff_greater :=
    (λ t, match t with Some t => (t <? 60)%Z | None => false end) <$> time_diff in
  let to_remove := zip_with andb correlaton_greater time_diff_greater in
  mret (unmarked df_highlights to_remove).

Section Frame.
Context `{U : Unicode}.

(** [re.search(r"(Your.*\| Added on)", line)]: ["Your"] somewhere, and
    ["| Added on"] after it with no newline in between. *)
Fixpoint search_meta (line : text) : bool :=
  (startswith (str "Your") line
   && (let rest := drop 4 line in
       contains (str "| Added on")
                (take (span_len (λ c, negb (chr_eqb c NL)) rest) rest)))
  || match line with
     | [] => false
     | _ :: line' => search_meta line'
     end.

(** [pd.DataFrame({'highlight': ..., 'meta': ..., 'date': ...})]: the
    columns must have the same length. *)
Definition DataFrame (highlights_text highlights_meta : list text)
    (highlights_date : list datetime) : result (list row) :=
  if (length highlights_text =? length highlights_meta)%nat
     && (length highlights_meta =? length highlights_date)%nat
  then Ok (zip_with (λ h md, Row h md.1 md.2) highlights_text
                    (zip highlights_meta highlights_date))
  else Raise ValueError.

(** The loop that sorts the lines into the three columns, which are
    kept reversed here. *)
Fixpoint sort_lines (lines : list text) (m : list text) (d : list datetime) (t : list text)
    : result (list text * list datetime * list text) :=
  match lines with
  | [] => Ok (m, d, t)
  | highlight_line :: lines' =>
      if search_meta highlight_line
      then highlight_date ← extract_date_and_time highlight_line;
           sort_lines lines' (highlight_line :: m) (highlight_date :: d) t
      else sort_lines lines' m d (highlight_line :: t)
  end.

Definition create_df_from_highlights_list (higlights_list : list text) : result (list row) :=
  let filtered_highlights :=
    filter (λ string, string ≠ str "..." ∧ string ≠ []) higlights_list in
  '(m, d, t) ← sort_lines filtered_highlights [] [] [];
  df_highlights ← DataFrame (reverse t) (reverse m) (reverse d);
  filter_repeated_highlights df_highlights.

(** The lines of a book file, as [convert_to_format] reads them:
    [txt_file.read().split("\n")]. *)
Definition paragraph (content : text) : list text := split [NL] content.

(** [prepare_pdf_document(highlights, title)], as far as the text goes:
    the highlight and the metadata of every row of the frame, in the
    order in which they are put on the pages.  The layout is left to
    the PDF library. *)
Definition prepare_pdf_document (highlights : list text) : result (list (text * text)) :=
  match create_df_from_highlights_list highlights with
  | Ok df_highlights =>
      Ok ((λ highlight_content, (highlight highlight_content, meta highlight_content))
            <$> df_highlights)
  | Raise e => Raise e
  end.

(** The lines of a book file that are bodies of clippings: the lines
    that [create_df_from_highlights_list] puts in its first column. *)
Definition body_lines (content : text) : list text :=
  filter (λ string, string ≠ str "..." ∧ string ≠ [] ∧ search_meta string = false)
         (paragraph content).

End Frame.

(** ** The rules as the specification words them *)

(** The similarity of two bodies: one less the edit distance over the
    length of the longer body, in binary64. *)
Definition similarity (a b : text) : float :=
  (1 - float_of_nat (lev a b) / float_of_nat (length a `max` length b))%float.

(** A record is redundant next to its successor when the similarity is
    above 0.30 and the successor was added less than a minute later. *)
Definition redundant (r next : row) : bool :=
  (0x1.3333333333333p-2 <? similarity (highlight r) (highlight next))%float
  && (seconds (date next) - seconds (date r) <? 60)%Z.

(** One pass over the neighbours: a record that is redundant next to
    its successor in the input is dropped, the last record is kept. *)
Fixpoint collapse (df : list row) : list row :=
  match df with
  | [] => []
  | r :: rest =>
      match rest with
      | next :: _ => if redundant r next then collapse rest else r :: collapse rest
      | [] => [r]
      end
  end.

(** No two neighbours have both an empty body. *)
Fixpoint no_empty_pair (df : list row) : Prop :=
  match df with
  | [] => True
  | r :: rest =>
      match rest with
      | next :: _ => (highlight r ≠ [] ∨ highlight next ≠ []) ∧ no_empty_pair rest
      | [] => True
      end
  end.

(** [re.sub(pattern, repl, s, count=1)]: the leftmost match only. *)
Fixpoint re_sub_first (m : text → option (text * nat)) (s : text) : text :=
  match s with
  | [] => []
  | c :: s' =>
      match m s with
      | Some (repl, n) => repl ++ drop n s
      | None => c :: re_sub_first m s'
      end
  end.

Section FirstGroupOnly.
Context `{U : Unicode}.

(** The sanitizer with its third step as the specification words it:
    the first parenthesized group is rewritten, the later ones are left
    to the fourth step. *)
Definition sanitize_first_group_only (s output_directory : text) : text :=
  let s := re_sub m_colon s in
  let s := replace_marks s in
  let s := re_sub_first m_paren s in
  let s := re_sub m_special s in
  let s := trim_nonword s in
  let max_length := (245 - Z.of_nat (length output_directory))%Z in
  slice_to max_length s.

End FirstGroupOnly.

(** The suffixes of a text, the text itself first. *)
Fixpoint suffixes (t : text) : list text :=
  t :: match t with
       | [] => []
       | _ :: t' => suffixes t'
       end.

(** ** What a run leaves in a book file

    The records that go to one file, and what the exact-containment
    check alone makes of them. *)

Section Persisted.
Context `{U : Unicode}.
Variable output_directory : text.
Variable include_clip_meta : bool.

(** The records of the chunks that go to the file [name], in the order
    of the source: body and metadata line. *)
Definition records_of (name : text) (chunks : list text) : list (text * text) :=
  omap (λ highlight,
          match classify output_directory highlight with
          | Clipping outfile_name clipping_text clip_meta =>
              if decide (outfile_name = name) then Some (clipping_text, clip_meta) else None
          | _ => None
          end) chunks.

(** One record under the exact-containment check: the record is left
    out when its body occurs in the text of the file, and its entry is
    put after the text otherwise; a file that is not there yet is made
    of the entry. *)
Definition exact_step (current : option text) (record : text * text) : option text :=
  match current with
  | None => Some (entry include_clip_meta record.1 record.2)
  | Some current_text =>
      if contains record.1 current_text then Some current_text
      else Some (current_text ++ entry include_clip_meta record.1 record.2)
  end.

Definition persisted (current : option text) (records : list (text * text))
    : option text :=
  foldl exact_step current records.

End Persisted.

(** ** Example data *)

(** The text between two delimiters for a record of the export file:
    the end of the delimiter line, the title line, the metadata line, a
    blank line and the body line. *)
Definition chunk_of (title clip_meta body : string) : text :=
  [NL] ++ str title ++ [NL] ++ str clip_meta ++ [NL; NL] ++ str body ++ [NL].

(** An export file: every record is followed by the delimiter line.  The
    file starts with a delimiter line, so that the first record is a
    chunk like the others. *)
Definition export_of (chunks : list text) : text :=
  str "==========" ++ mjoin ((λ c, c ++ str "==========") <$> chunks) ++ [NL].

(** A record cut short after its metadata line. *)
Definition truncated_chunk : text :=
  [NL] ++ str "Book A" ++ [NL]
  ++ str "- Your Highlight on page 12 | Added on Friday, 5 March 2021 14:32:10" ++ [NL].

Definition hello_world_dir : gmap text text :=
  {[ str "Book A.txt" := str "Hello world" ++ [NL] ]}.

(** Metadata lines as the e-reader writes them. *)
Definition meta_at (page time : string) : string :=
  "- Your Highlight on page " +:+ page +:+ " | Added on Friday, 5 March 2021 " +:+ time.

(** The metadata line of the specification: no day of the week before
    the date. *)
Definition meta_without_weekday : text :=
  str "Your Highlight on page 12 | Added on 5 March 2021 14:32:10".

Definition meta_with_weekday : text :=
  str "Your Highlight on page 12 | Added on Friday, 5 March 2021 14:32:10".

(** Three records for ["Book A"], the first two near-duplicates five
    seconds apart, and one record for ["Book B"]. *)
Definition scenario_source : text :=
  export_of [chunk_of "Book A" (meta_at "12" "14:32:10") "The quick brown fox";
             chunk_of "Book A" (meta_at "12" "14:32:15") "The quick brown fox.";
             chunk_of "Book A" (meta_at "40" "18:00:00") "Something else entirely";
             chunk_of "Book B" (meta_at "7" "19:30:00") "A line from another book"].

Definition fox_at (body : string) (h m s : nat) : row :=
  Row (str body) (str "- Your Highlight on page 12 | Added on Friday, 5 March 2021")
      (Datetime 2021 3 5 h m s).

(** The lines of a book file in which the first metadata line has no
    day of the week, and the second is well formed. *)
Definition lines_with_bad_timestamp : list text :=
  [str "A first highlight"; str "- " ++ meta_without_weekday; []; str "..."; [];
   str "A second highlight"; str "- " ++ meta_with_weekday; []; str "..."; []; []].


(** An export file as the e-reader writes it: a record, then the
    delimiter line, with nothing before the first record. *)
Definition record_of (title clip_meta body : string) : text :=
  str title ++ [NL] ++ str clip_meta ++ [NL; NL] ++ str body ++ [NL]
  ++ str "==========" ++ [NL].

(** The records of the scenario in that layout, the record of
    ["Book B"] first. *)
Definition scenario_as_exported : text :=
  record_of "Book B" (meta_at "7" "09:30:00") "A line from another book"
  ++ record_of "Book A" (meta_at "12" "14:32:10") "The quick brown fox"
  ++ record_of "Book A" (meta_at "12" "14:32:15") "The quick brown fox."
  ++ record_of "Book A" (meta_at "40" "18:00:00") "Something else entirely".

(** The state before the run of the scenario: the source file, and no
    output directory yet. *)
Definition scenario_world : world := World (Some scenario_source) None [].

(** The records of the scenario as rows of the frame. *)
Definition scenario_a1 : row :=
  Row (str "The quick brown fox") (str (meta_at "12" "14:32:10"))
      (Datetime 2021 3 5 14 32 10).

Definition scenario_a2 : row :=
  Row (str "The quick brown fox.") (str (meta_at "12" "14:32:15"))
      (Datetime 2021 3 5 14 32 15).

Definition scenario_a3 : row :=
  Row (str "Something else entirely") (str (meta_at "40" "18:00:00"))
      (Datetime 2021 3 5 18 0 0).

Definition scenario_b1 : row :=
  Row (str "A line from another book") (str (meta_at "7" "19:30:00"))
      (Datetime 2021 3 5 19 30 0).

(** ** Chunks on which the loop raises *)

(** Indexing the lines of the chunk raises: there are exactly three
    lines after the first, so that [lines[3]] is out of range, or the
    body is not empty and the title line is, so that [title[0]] is. *)
Definition malformed (highlight : text) : Prop :=
  let lines := tail (split [NL] highlight) in
  length lines = 3
  ∨ ∃ body, lines !! 3 = Some body ∧ body ≠ [] ∧ lines !! 0 = Some [].

(** ** More example data *)

(** An export file with one record for ["Book A"], and a state in which
    the file of ["Book A"] is already in the output directory. *)
Definition one_record_source : text :=
  export_of [chunk_of "Book A" "meta" "A new highlight"].

Definition one_record_world : world :=
  World (Some one_record_source) (Some hello_world_dir) [].

(** A record with an empty title line. *)
Definition untitled_chunk : text :=
  NL :: NL :: str "meta" ++ [NL; NL] ++ str "body" ++ [NL].

(** The ASCII characters that can be in a sanitized title: letters,
    digits, white space and [;], [,], [_], [-]. *)
Definition plain_filename_char (c : char) : bool :=
  ascii_lower c || ascii_upper c || ascii_digit c || ascii_space c
  || chr_eqb c 59 || chr_eqb c 44 || chr_eqb c 95 || chr_eqb c 45.

(** Characters that file systems reserve or that the sanitizer is meant
    to remove: [/ \ : * ? < > | & ( ) .] and the double quote. *)
Definition reserved_chars : text := str "/\:*?<>|&()." ++ [34%N].

(** A metadata line with the date as a US locale writes it. *)
Definition meta_us_format : text :=
  str "- Your Highlight on page 12 | Added on Friday, March 5, 2021 2:32:10 PM".

(** ** From the book file to the frame *)

(** The text of a book file to which the entries of the given records
    were written, one after the other. *)
Definition book_text (include_clip_meta : bool) (records : list row) : text :=
  mjoin ((λ r, entry include_clip_meta (highlight r) (meta r)) <$> records).

Section Renderable.
Context `{U : Unicode}.

(** A record as the text stage writes it for a well-formed clipping:
    body and metadata are single lines, the body is not empty, is not
    the separator ["..."] and does not look like a metadata line, and
    the metadata line has the timestamp of the record. *)
Definition renderable (r : row) : Prop :=
(NL ∉ highlight r) ∧ (NL ∉ meta r)
  ∧ highlight r ≠ [] ∧ highlight r ≠ str "..." ∧ search_meta (highlight r) = false
  ∧ search_meta (meta r) = true ∧ extract_date_and_time (meta r) = Ok (date r).

End Renderable.

(** Two records for one book, as the text stage writes them. *)
Definition two_records : list row :=
  [Row (str "The quick brown fox") (str (meta_at "12" "14:32:10"))
       (Datetime 2021 3 5 14 32 10);
   Row (str "Something else entirely") (str (meta_at "40" "18:00:00"))
       (Datetime 2021 3 5 18 0 0)].

(** ** The page: [insert_line_break_in_pdf]

    The PDF object is the list of the calls made on it, in order.  The
    loop [while num_breaks != 0] has no bound in the source; here it
    runs on fuel and gives [None] when the fuel is used up. *)

Inductive fpdf_call : Type :=
  | multi_cell (w h : Z) (txt : text) (border : Z).

Fixpoint insert_line_break_in_pdf (fuel : nat) (pdf_file : list fpdf_call) (num_breaks : Z)
    : option (list fpdf_call) :=
  match fuel with
  | O => None
  | S fuel' =>
      if (num_breaks =? 0)%Z then Some pdf_file
      else insert_line_break_in_pdf fuel' (pdf_file ++ [multi_cell 0 5 [] 0])
                                    (num_breaks - 1)%Z
  end.
(** * Properties *)

#[local] Set Warnings "-clear-no-such-hyp".

(** Closes a goal that evaluation decides. *)
Ltac by_compute := vm_compute; first [reflexivity | done].

(** ** Substrings *)

Lemma startswith_spec (p s : text) :
  startswith p s = true ↔ ∃ post, s = p ++ post.
Proof.
  unfold startswith. rewrite bool_decide_eq_true. split.
  - intros H. exists (drop (length p) s). rewrite <- H at 1. by rewrite take_drop.
  - intros [post ->]. by rewrite take_app_length.
Qed.

(** [sub in s] holds exactly when [sub] occurs somewhere in [s]. *)
Lemma contains_spec (sub s : text) :
  contains sub s = true ↔ ∃ pre post, s = pre ++ sub ++ post.
Proof.
  split.
  - induction s as [|c s IH]; simpl; rewrite orb_true_iff.
    + intros [H|H]; [|done]. apply startswith_spec in H as [post ->]. by exists [], post.
    + intros [H|H].
      * apply startswith_spec in H as [post ->]. by exists [], post.
      * destruct (IH H) as (pre & post & ->). by exists (c :: pre), post.
  - intros (pre & post & ->). induction pre as [|c pre IH]; simpl.
    + assert (startswith sub (sub ++ post) = true) as Hs
        by (apply startswith_spec; eauto).
      destruct (sub ++ post); simpl in *; by rewrite Hs.
    + rewrite IH. apply orb_true_r.
Qed.

Lemma contains_app_r (sub s t : text) :
  contains sub s = true → contains sub (s ++ t) = true.
Proof.
  rewrite !contains_spec. intros (pre & post & ->).
  exists pre, (post ++ t). by rewrite <- !app_assoc.
Qed.

Lemma contains_app_l (sub s t : text) :
  contains sub t = true → contains sub (s ++ t) = true.
Proof.
  rewrite !contains_spec. intros (pre & post & ->).
  exists (s ++ pre), post. by rewrite <- !app_assoc.
Qed.

Lemma contains_refl (s : text) : contains s s = true.
Proof. apply contains_spec. exists [], []. by rewrite app_nil_r. Qed.

Lemma contains_nil_r (sub : text) : sub ≠ [] → contains sub [] = false.
Proof.
  intros H. simpl. rewrite orb_false_r. unfold startswith.
  apply bool_decide_eq_false. rewrite take_nil. congruence.
Qed.

(** ** File names *)

Section NameFacts.
Context `{U : Unicode}.

Lemma re_sub_special_chars (k : nat) (s : text) (c : char) :
  c ∈ re_sub_go m_special k s → filename_char c = true.
Proof.
  revert k. induction s as [|a s IH]; intros k; simpl.
  - by intros ?%elem_of_nil.
  - destruct k as [|k]; [|by apply IH].
    unfold m_special. simpl. destruct (filename_char a) eqn:Ha; simpl.
    + rewrite elem_of_cons. intros [->|H]; [done|by eapply IH].
    + apply IH.
Qed.

Lemma trim_nonword_subseteq (s : text) : trim_nonword s ⊆ s.
Proof.
  unfold trim_nonword. intros c. rewrite elem_of_reverse. intros H.
  eapply elem_of_sublist in H; [|apply sublist_drop].
  rewrite elem_of_reverse in H. eapply elem_of_sublist; [done|apply sublist_drop].
Qed.

Lemma slice_to_subseteq (n : Z) (s : text) : slice_to n s ⊆ s.
Proof.
  unfold slice_to. intros c H. destruct (0 <=? n)%Z;
    (eapply elem_of_sublist; [done|apply sublist_take]).
Qed.

(** Every character of a sanitized title is one that the sanitizer
    keeps. *)
Lemma remove_chars_filename_chars (s output_directory : text) (c : char) :
  c ∈ remove_chars s output_directory → filename_char c = true.
Proof.
  unfold remove_chars. intros H.
  apply slice_to_subseteq, trim_nonword_subseteq in H.
  by eapply re_sub_special_chars.
Qed.

(** A file name made by the parser has no path separator. *)
Lemma outfile_name_no_slash (s output_directory : text) :
  47%N ∉ remove_chars s output_directory ++ str ".txt".
Proof.
  rewrite not_elem_of_app. split.
  - intros H%remove_chars_filename_chars. by vm_compute in H.
  - change (str ".txt") with [46%N; 116%N; 120%N; 116%N].
    rewrite !elem_of_cons, elem_of_nil. intros H. intuition discriminate.
Qed.

End NameFacts.

Lemma startswith_slash (p : text) : 47%N ∉ p → startswith (str "/") p = false.
Proof.
  intros H. destruct (startswith (str "/") p) eqn:E; [|done].
  apply startswith_spec in E as [post ->]. exfalso. apply H. vm_compute. left.
Qed.

(** The path of a plain file name is the name itself when the directory
    is the empty path, and has a separator otherwise. *)
Lemma os_path_join_plain (a p : text) :
  47%N ∉ p → (a = [] ∧ os_path_join a p = p) ∨ 47%N ∈ os_path_join a p.
Proof.
  intros Hp. unfold os_path_join. rewrite (startswith_slash p Hp).
  case_bool_decide as Ha; simpl; [by left; subst|]. right.
  case_bool_decide as Hl; simpl.
  - apply elem_of_app. left. apply last_Some in Hl as [l' ->].
    apply elem_of_app. right. left.
  - apply elem_of_app. right. left.
Qed.

(** ** The file-system operations *)

#[local] Arguments contains : simpl never.
#[local] Arguments split : simpl never.
#[local] Arguments remove_chars : simpl never.
#[local] Arguments str : simpl never.

Ltac unfold_monad :=
  unfold mbind, M_bind, mret, M_ret, raise, index, log, set_directory in *; simpl in *.

Section ParserFacts.
Context `{U : Unicode}.
Variable output_directory : text.
Variable include_clip_meta : bool.

Lemma contains_entry body clip_meta :
  contains body (entry include_clip_meta body clip_meta) = true.
Proof. unfold entry. apply contains_app_r, contains_refl. Qed.

#[local] Abbreviation process_highlight := (process_highlight output_directory include_clip_meta).
#[local] Abbreviation parse_clippings := (parse_clippings output_directory include_clip_meta).
#[local] Abbreviation write_clipping := (write_clipping include_clip_meta).
#[local] Abbreviation entry := (entry include_clip_meta).
#[local] Abbreviation classify := (classify output_directory).
#[local] Abbreviation pure_step := (pure_step output_directory include_clip_meta).
#[local] Abbreviation pure_loop := (pure_loop output_directory include_clip_meta).

Lemma write_clipping_spec name body clip_meta w d :
  directory w = Some d →
  ∃ w', write_clipping name body clip_meta w = (w', Ok ())
        ∧ source w' = source w
        ∧ directory w' = Some (<[name := default [] (d !! name) ++ entry body clip_meta]> d).
Proof.
  destruct w as [src dir tr]. simpl. intros ->.
  unfold write_clipping, entry, file_write. unfold_monad.
  destruct include_clip_meta; simpl; eexists; (split; [reflexivity|]); simpl;
    (split; [done|]); f_equal;
    rewrite ?lookup_insert_eq, ?insert_insert_eq; simpl;
    by rewrite <- ?app_assoc.
Qed.

(** [process_highlight] acts on the directory as [pure_step] does, and
    leaves the source file alone. *)
Lemma process_highlight_pure output_files highlight w d :
  directory w = Some d →
  ∃ w', process_highlight output_files highlight w
          = (w', (pure_step output_files d highlight).2)
        ∧ source w' = source w
        ∧ directory w' = Some (pure_step output_files d highlight).1.
Proof.
  destruct w as [src dir tr]. simpl. intros ->.
  unfold process_highlight, pure_step, classify.
  set (lines := tail (split [NL] highlight)).
  destruct (length lines <? 3)%nat eqn:Hlen; [by eexists|].
  unfold_monad.
  destruct (lines !! 3) as [body|] eqn:H3; simpl; [|by eexists].
  case_bool_decide as Hbody; [by eexists|].
  destruct (lines !! 0) as [title|] eqn:H0; simpl; [|by eexists].
  destruct title as [|first rest]; simpl; [by eexists|].
  assert (is_Some (lines !! 1)) as [clip_meta H1].
  { apply lookup_lt_is_Some. apply lookup_lt_Some in H3. lia. }
  rewrite H1. simpl.
  unfold os_listdir, read_file, open_file. simpl. rewrite ?drop_0.
  match goal with
  | |- context [remove_chars ?t output_directory ++ ?e] =>
      set (name := remove_chars t output_directory ++ e)
  end.
  destruct (bool_decide (name ∉ output_files) && bool_decide (name ∉ dom d)) eqn:Hnew; simpl.
  - rewrite (contains_nil_r body Hbody). simpl.
    edestruct (write_clipping_spec name body clip_meta) as (w' & -> & Hs & Hdir);
      [reflexivity|].
    simpl in *. eexists. split; [reflexivity|]. split; [done|].
    rewrite Hdir. f_equal. by rewrite lookup_insert_eq, insert_insert_eq.
  - destruct (d !! name) as [current_text|] eqn:Hname; simpl; [|by eexists].
    rewrite Hname. destruct (contains body current_text) eqn:Hin; simpl.
    + by eexists.
    + edestruct (write_clipping_spec name body clip_meta) as (w' & -> & Hs & Hdir);
        [reflexivity|].
      simpl in *. eexists. split; [reflexivity|]. split; [done|].
      rewrite Hdir. by rewrite Hname.
Qed.

Lemma for_each_pure chunks output_files w d :
  directory w = Some d →
  ∃ w', for_each process_highlight chunks output_files w
          = (w', (pure_loop output_files d chunks).2)
        ∧ source w' = source w
        ∧ directory w' = Some (pure_loop output_files d chunks).1.
Proof.
  revert output_files w d. induction chunks as [|h chunks IH]; intros out w d Hd; simpl.
  - by eexists.
  - unfold mbind, M_bind.
    destruct (process_highlight_pure out h w d Hd) as (w1 & -> & Hs1 & Hd1).
    destruct (pure_step out d h) as [d1 [out1|e]]; simpl in *.
    + destruct (IH out1 w1 d1 Hd1) as (w' & -> & Hs & Hd'). eexists.
      split; [reflexivity|]. split; [congruence|done].
    + by eexists.
Qed.

(** ** Invariants of the loop *)

#[local] Abbreviation absorbed := (absorbed output_directory).
#[local] Abbreviation created := (created output_directory).

Lemma grows_refl d : grows d d.
Proof. intros n t H. exists []. by rewrite app_nil_r. Qed.

Lemma grows_trans d1 d2 d3 : grows d1 d2 → grows d2 d3 → grows d1 d3.
Proof.
  intros H12 H23 n t H. destruct (H12 n t H) as [t1 H1].
  destruct (H23 n _ H1) as [t2 H2]. exists (t1 ++ t2). by rewrite app_assoc.
Qed.

Lemma grows_append d n t x : d !! n = Some t → grows d (<[n := t ++ x]> d).
Proof.
  intros Hn m u Hm. destruct (decide (n = m)) as [->|Hne].
  - exists x. rewrite lookup_insert_eq. congruence.
  - exists []. by rewrite lookup_insert_ne, app_nil_r.
Qed.

Lemma grows_new d n x : d !! n = None → grows d (<[n := x]> d).
Proof.
  intros Hn m u Hm. exists []. rewrite app_nil_r, lookup_insert_ne; [done|congruence].
Qed.

Lemma grows_dom d d' : grows d d' → dom d ⊆ dom d'.
Proof.
  intros H n [t Ht]%elem_of_dom. destruct (H n t Ht) as [t' Ht'].
  apply elem_of_dom. eauto.
Qed.

Lemma absorbed_grows d d' h : grows d d' → absorbed d h → absorbed d' h.
Proof.
  unfold absorbed. intros Hg. destruct (classify h) as [| |name body clip_meta]; try done.
  intros (t & Ht & Hin). destruct (Hg name t Ht) as [t' Ht'].
  exists (t ++ t'). split; [done|]. by apply contains_app_r.
Qed.

Lemma classify_clipping h name body clip_meta :
  classify h = Clipping name body clip_meta → (47%N ∉ name) ∧ body ≠ [].
Proof.
  unfold classify. destruct (_ <? 3)%nat; [done|].
  destruct (_ !! 3) as [b|]; [|done]. case_bool_decide as Hb; [done|].
  destruct (_ !! 0) as [[|first rest]|]; try done.
  destruct (_ !! 1); [|done]. intros [= <- <- <-]. split; [|done].
  apply outfile_name_no_slash.
Qed.

(** One step of the loop. *)
Lemma pure_step_facts out d h d' r :
  names_known out d →
  pure_step out d h = (d', r) →
  grows d d'
  ∧ match r with
    | Ok out' => names_known out' d' ∧ absorbed d' h ∧ out' = out ∪ created d d'
    | Raise e => d' = d ∧ e = IndexError ∧ classify h = Malformed
    end.
Proof.
  intros Hk. unfold pure_step, absorbed, created.
  destruct (classify h) as [| |name body clip_meta] eqn:Hc.
  - intros [= <- <-]. split; [apply grows_refl|]. split; [done|]. split; [done|].
    set_solver.
  - intros [= <- <-]. split; [apply grows_refl|done].
  - destruct (classify_clipping _ _ _ _ Hc) as [Hslash Hbody].
    destruct (bool_decide (name ∉ out) && bool_decide (name ∉ dom d)) eqn:Hnew.
    + apply andb_true_iff in Hnew as [Hout%bool_decide_eq_true Hdom%bool_decide_eq_true].
      intros [= <- <-]. apply not_elem_of_dom in Hdom as Hnone.
      split; [by apply grows_new|]. split; [|split].
      * intros n Hn. rewrite elem_of_union, elem_of_singleton, dom_insert_L.
        intros [->|Hin]; [|by apply elem_of_union_r, Hk].
        destruct (os_path_join_plain output_directory name Hslash) as [[_ ->]|Hj];
          [set_solver|done].
      * exists (entry body clip_meta). rewrite lookup_insert_eq. split; [done|].
        apply contains_entry.
      * rewrite dom_insert_L.
        replace (({[name]} ∪ dom d) ∖ dom d) with ({[name]} : gset text) by set_solver.
        rewrite set_map_singleton_L. set_solver.
    + assert (name ∈ dom d) as [t Ht]%elem_of_dom.
      { apply andb_false_iff in Hnew as [H|H]; apply bool_decide_eq_false in H.
        - apply dec_stable in H. by apply Hk.
        - by apply dec_stable in H. }
      rewrite Ht. intros [= <- <-].
      destruct (contains body t) eqn:Hin.
      * split; [apply grows_refl|]. split; [done|]. split; [eauto|]. set_solver.
      * split; [by apply grows_append|]. split; [|split].
        -- intros n Hn Hno. rewrite dom_insert_L. apply elem_of_union_r. by apply Hk.
        -- eexists. rewrite lookup_insert_eq. split; [done|].
           apply contains_app_l, contains_entry.
        -- rewrite dom_insert_L.
           replace (({[name]} ∪ dom d) ∖ dom d) with (∅ : gset text)
             by (apply elem_of_dom_2 in Ht; set_solver).
           set_solver.
Qed.

Lemma created_trans d1 d2 d3 :
  dom d1 ⊆ dom d2 → dom d2 ⊆ dom d3 → created d1 d2 ∪ created d2 d3 = created d1 d3.
Proof.
  unfold created. intros H12 H23. rewrite <- set_map_union_L. f_equal.
  apply set_eq. intros x. rewrite elem_of_union, !elem_of_difference.
  specialize (H12 x). specialize (H23 x). destruct (decide (x ∈ dom d2)); tauto.
Qed.

Lemma created_refl d : created d d = ∅.
Proof. unfold created. replace (dom d ∖ dom d) with (∅ : gset text) by set_solver. done. Qed.

(** A chunk that the directory has absorbed leaves it as it is. *)
Lemma pure_step_absorbed out d h :
  absorbed d h → classify h ≠ Malformed → pure_step out d h = (d, Ok out).
Proof.
  unfold absorbed, pure_step. destruct (classify h) as [| |name body clip_meta]; try done.
  intros (t & Ht & Hin) _.
  assert (bool_decide (name ∉ dom d) = false) as ->.
  { apply bool_decide_eq_false. intros H. apply H. by apply elem_of_dom. }
  rewrite andb_false_r, Ht, Hin. done.
Qed.

(** The whole loop. *)
Lemma pure_loop_facts chunks out d d' r :
  names_known out d →
  pure_loop out d chunks = (d', r) →
  grows d d'
  ∧ match r with
    | Ok out' => names_known out' d' ∧ out' = out ∪ created d d'
    | Raise e => e = IndexError
    end.
Proof.
  revert out d. induction chunks as [|h chunks IH]; intros out d Hk; simpl.
  - intros [= <- <-]. split; [apply grows_refl|]. split; [done|].
    rewrite created_refl. set_solver.
  - destruct (pure_step out d h) as [d1 [out1|e]] eqn:Hstep;
      destruct (pure_step_facts _ _ _ _ _ Hk Hstep) as [Hg Hr].
    + destruct Hr as (Hk1 & _ & ->). intros Hloop.
      destruct (IH _ _ Hk1 Hloop) as [Hg' Hr']. split; [by eapply grows_trans|].
      destruct r as [out'|e]; [|done]. destruct Hr' as [Hk' ->]. split; [done|].
      rewrite <- (created_trans d d1 d') by by apply grows_dom. set_solver.
    + destruct Hr as (-> & -> & _). intros [= <- <-]. split; [apply grows_refl|done].
Qed.

(** Running the loop over the same chunks on a directory that extends
    the one the first run ended with changes nothing. *)
Lemma pure_loop_again chunks out d d1 r out2 dd :
  names_known out d →
  pure_loop out d chunks = (d1, r) →
  grows d1 dd →
  pure_loop out2 dd chunks
  = (dd, match r with Ok _ => Ok out2 | Raise e => Raise e end).
Proof.
  revert out d. induction chunks as [|h chunks IH]; intros out d Hk; simpl.
  - by intros [= <- <-] _.
  - destruct (pure_step out d h) as [d' [out'|e]] eqn:Hstep;
      destruct (pure_step_facts _ _ _ _ _ Hk Hstep) as [Hg Hr].
    + destruct Hr as (Hk' & Habs & _). intros Hloop Hdd.
      destruct (pure_loop_facts _ _ _ _ _ Hk' Hloop) as [Hg1 _].
      rewrite pure_step_absorbed.
      * by eapply IH.
      * eapply absorbed_grows; [|done]. by eapply grows_trans.
      * intros Hm. unfold pure_step in Hstep. by rewrite Hm in Hstep.
    + destruct Hr as (-> & -> & Hm). intros [= <- <-] Hdd.
      unfold pure_step. by rewrite Hm.
Qed.

(** ** The run *)

(** [parse_clippings] raises before touching anything when the source
    file or the output path is missing, and otherwise acts on the
    directory as [pure_loop] does on the chunks of the source. *)
Lemma parse_clippings_run w :
  match source w with
  | None => parse_clippings w = (w, Raise IOError)
  | Some content =>
      if bool_decide (output_directory = [])
      then parse_clippings w = (w, Raise FileNotFoundError)
      else
        let run := pure_loop ∅ (files w) (split (str "==========") content) in
        ∃ w', parse_clippings w = (w', run.2)
              ∧ source w' = source w
              ∧ directory w' = Some run.1
  end.
Proof.
  destruct w as [[content|] dir tr]; simpl; [|done].
  unfold parse_clippings, os_path_isfile, os_path_exists, os_makedirs, read_source, files.
  unfold_monad. case_bool_decide as Hout; simpl.
  - rewrite bool_decide_eq_false_2 by (by intros H; apply H). done.
  - rewrite bool_decide_eq_true_2 by done. simpl.
    destruct dir as [d|]; simpl.
    + edestruct (for_each_pure (split (str "==========") content) ∅) as (w' & -> & Hs & Hd);
        [reflexivity|].
      eexists. split; [reflexivity|]. by split.
    + edestruct (for_each_pure (split (str "==========") content) ∅) as (w' & -> & Hs & Hd);
        [reflexivity|].
      eexists. split; [reflexivity|]. by split.
Qed.

End ParserFacts.

(** ** The text stage: idempotence, returned set, failures *)

Section ParserClaims.
Context `{U : Unicode}.
Variable output_directory : text.
Variable include_clip_meta : bool.

#[local] Abbreviation process_highlight := (process_highlight output_directory include_clip_meta).
#[local] Abbreviation parse_clippings := (parse_clippings output_directory include_clip_meta).
#[local] Abbreviation entry := (entry include_clip_meta).
#[local] Abbreviation pure_loop := (pure_loop output_directory include_clip_meta).
#[local] Abbreviation created := (created output_directory).

Lemma names_known_empty d : names_known ∅ d.
Proof. intros n _ H. set_solver. Qed.

(** C1. Idempotence of [parse_clippings]: a second run on the state the
    first run left (the source file, which the run does not change, and
    the output directory as it is after the first run) adds nothing to
    any file: the directory after the second run is the directory after
    the first. *)
Theorem parse_clippings_idempotent (w : world) :
  let w1 := (parse_clippings w).1 in
  let w2 := (parse_clippings w1).1 in
  source w1 = source w ∧ directory w2 = directory w1.
Proof.
  simpl. pose proof (parse_clippings_run output_directory include_clip_meta w) as H1.
  destruct (source w) as [content|] eqn:Hsrc.
  - case_bool_decide as Hout.
    + rewrite H1. simpl. split; [done|]. by rewrite H1.
    + destruct H1 as (w1 & -> & Hs1 & Hd1). simpl. split; [congruence|].
      pose proof (parse_clippings_run output_directory include_clip_meta w1) as H2.
      rewrite Hs1 in H2. rewrite bool_decide_eq_false_2 in H2 by done.
      destruct H2 as (w2 & -> & Hs2 & Hd2). simpl. rewrite Hd2, Hd1. f_equal.
      destruct (pure_loop ∅ (files w) (split (str "==========") content))
        as [d1 r] eqn:Hloop.
      unfold files at 1. rewrite Hd1. simpl.
      erewrite pure_loop_again; [done|apply names_known_empty|done|apply grows_refl].
  - rewrite H1. simpl. split; [done|]. by rewrite H1.
Qed.

(** C6, as the code has it. The set that [parse_clippings] returns is
    the set of the paths of the files CREATED during the run: the files
    of the output directory after the run that were not there before.
    A file that was there before the run is not in the set, whatever
    is appended to it. *)
Theorem parse_clippings_returns_created (w w' : world) (output_files : gset text) :
  parse_clippings w = (w', Ok output_files) →
  output_files = created (files w) (files w').
Proof.
  intros Hrun. pose proof (parse_clippings_run output_directory include_clip_meta w) as H.
  destruct (source w) as [content|]; [|congruence].
  case_bool_decide; [congruence|].
  destruct H as (w1 & Hrun1 & _ & Hd). rewrite Hrun in Hrun1.
  injection Hrun1 as <- Hr. unfold files at 2. rewrite Hd. simpl.
  destruct (pure_loop ∅ (files w) (split (str "==========") content)) as [d1 r] eqn:Hloop.
  simpl in *. subst r.
  destruct (pure_loop_facts _ _ _ _ _ _ _ (names_known_empty _) Hloop) as [_ [_ ->]].
  set_solver.
Qed.

(** C10. When the source path is not an existing file, [parse_clippings]
    raises [IOError] and the state is the one it started from: the
    output directory is not created, no file is created or modified,
    and no operation is performed on the file system at all (the trace
    is unchanged). *)
Theorem source_not_found_is_atomic (w : world) :
  source w = None → parse_clippings w = (w, Raise IOError).
Proof.
  intros H. pose proof (parse_clippings_run output_directory include_clip_meta w) as Hrun.
  by rewrite H in Hrun.
Qed.

(** C7. Exact containment. For a clipping whose file is already in the
    directory, [process_highlight] reads the file, and: when the body
    occurs as a substring anywhere in the text read, the directory is
    left as it is (nothing is appended); when it does not occur, the
    entry of the clipping is appended to that text. *)
Theorem exact_containment (output_files : gset text) (highlight : text) (w : world)
    (d : gmap text text) (first : char) (title' clip_meta blank body : text)
    (more : list text) (existing : text) :
  let title := if chr_eqb first BOM then title' else first :: title' in
  let name := remove_chars title output_directory ++ str ".txt" in
  tail (split [NL] highlight) = (first :: title') :: clip_meta :: blank :: body :: more →
  body ≠ [] →
  directory w = Some d →
  d !! name = Some existing →
  ∃ w', process_highlight output_files highlight w = (w', Ok output_files)
        ∧ ((∃ pre post, existing = pre ++ body ++ post) → directory w' = Some d)
        ∧ ((¬ ∃ pre post, existing = pre ++ body ++ post) →
           directory w' = Some (<[name := existing ++ entry body clip_meta]> d)).
Proof.
  intros title name Hlines Hbody Hd Hname.
  destruct (process_highlight_pure output_directory include_clip_meta
              output_files highlight w d Hd) as (w' & Hrun & _ & Hd').
  assert (classify output_directory highlight = Clipping name body clip_meta) as Hc.
  { unfold classify. rewrite Hlines. simpl. by rewrite bool_decide_eq_false_2. }
  unfold pure_step in *. rewrite Hc in *.
  assert (bool_decide (name ∉ dom d) = false) as Hdom.
  { apply bool_decide_eq_false. intros H. apply H. by apply elem_of_dom. }
  rewrite Hdom, andb_false_r, Hname in *. simpl in *.
  exists w'. split; [done|]. rewrite Hd'. split.
  - intros Hin%contains_spec. by rewrite Hin.
  - intros Hnot. destruct (contains body existing) eqn:Hin; [|done].
    by apply contains_spec in Hin.
Qed.

(** C5, where the code departs from it. A chunk that has exactly three
    lines after its first line is not passed over: the guard
    [len(lines) < 3] lets it through and [lines[3]] raises
    [IndexError], which ends the run. *)
Theorem chunk_of_three_lines_raises (output_files : gset text) (highlight : text)
    (w : world) :
  length (tail (split [NL] highlight)) = 3 →
  process_highlight output_files highlight w = (w, Raise IndexError).
Proof.
  intros Hlen. unfold process_highlight. rewrite Hlen. simpl.
  unfold_monad. rewrite lookup_ge_None_2 by lia. done.
Qed.

(** The chunks that the guard does pass over: fewer than three lines
    after the first, or an empty fourth line. *)
Lemma chunk_passed_over (output_files : gset text) (highlight : text) (w : world) :
  let lines := tail (split [NL] highlight) in
  length lines < 3 ∨ lines !! 3 = Some [] →
  process_highlight output_files highlight w = (w, Ok output_files).
Proof.
  intros lines H. unfold process_highlight. fold lines.
  destruct (length lines <? 3)%nat eqn:Hlen; [done|].
  apply Nat.ltb_ge in Hlen. destruct H as [H|H]; [lia|].
  unfold_monad. by rewrite H.
Qed.

End ParserClaims.

(** ** The text stage on examples *)

Lemma source_not_found_witness :
  let w := World None (Some hello_world_dir) [] in
  source w = None
  ∧ parse_clippings (U := ascii_only) (str "out") true w = (w, Raise IOError).
Proof.
  split; [reflexivity|].
  apply (source_not_found_is_atomic (U := ascii_only)). reflexivity.
Defined.

(** With ["Hello world\n"] on disk, a clipping ["Hello world"] adds
    nothing, and a clipping ["Hello world!"] is appended. *)
Lemma exact_containment_witness :
  let w := World None (Some hello_world_dir) [] in
  (∃ w', process_highlight (U := ascii_only) (str "out") false ∅
           (chunk_of "Book A" "meta" "Hello world") w = (w', Ok ∅)
         ∧ directory w' = Some hello_world_dir)
  ∧ (∃ w', process_highlight (U := ascii_only) (str "out") false ∅
             (chunk_of "Book A" "meta" "Hello world!") w = (w', Ok ∅)
           ∧ directory w'
             = Some {[ str "Book A.txt" :=
                         str "Hello world" ++ [NL] ++ str "Hello world!"
                         ++ [NL; NL] ++ str "..." ++ [NL; NL] ]}).
Proof.
  split.
  - destruct (exact_containment (U := ascii_only) (str "out") false ∅
                (chunk_of "Book A" "meta" "Hello world")
                (World None (Some hello_world_dir) []) hello_world_dir
                66%N (str "ook A") (str "meta") [] (str "Hello world") [[]]
                (str "Hello world" ++ [NL]))
      as (w' & Hrun & Hin & _); [by_compute..|].
    exists w'. split; [exact Hrun|]. apply Hin. by exists [], [NL].
  - destruct (exact_containment (U := ascii_only) (str "out") false ∅
                (chunk_of "Book A" "meta" "Hello world!")
                (World None (Some hello_world_dir) []) hello_world_dir
                66%N (str "ook A") (str "meta") [] (str "Hello world!") [[]]
                (str "Hello world" ++ [NL]))
      as (w' & Hrun & _ & Hout); [by_compute..|].
    exists w'. split; [exact Hrun|]. rewrite Hout; [by_compute|].
    intros Hin%contains_spec. by vm_compute in Hin.
Defined.

Lemma chunk_of_three_lines_witness :
  let w := World None (Some ∅) [] in
  length (tail (split [NL] truncated_chunk)) = 3
  ∧ process_highlight (U := ascii_only) (str "out") true ∅ truncated_chunk w
    = (w, Raise IndexError).
Proof.
  split; [reflexivity|].
  apply (chunk_of_three_lines_raises (U := ascii_only)). reflexivity.
Defined.

(** A run over an export file in which a record is cut short ends with
    [IndexError] at that record: the record after it is not written. *)
Example truncated_record_ends_run :
  let w := World (Some (export_of [truncated_chunk; chunk_of "Book B" "meta" "body"]))
                 (Some ∅) [] in
  let r := parse_clippings (U := ascii_only) (str "out") true w in
  r.2 = Raise IndexError ∧ directory r.1 = Some ∅.
Proof. by_compute. Qed.

(** A chunk with two lines after the first is passed over. *)
Example chunk_of_two_lines_passed_over :
  let w := World None (Some ∅) [] in
  process_highlight (U := ascii_only) (str "out") true ∅
    ([NL] ++ str "Book A" ++ [NL] ++ str "meta") w = (w, Ok ∅).
Proof. by_compute. Qed.

(** C6, against the claim. One record for ["Book A"], whose file is in
    the directory before the run: the record is appended to the file,
    and the returned set is empty, so the path of the file is not in
    it. *)
Lemma appended_file_not_returned :
  let w := World (Some (export_of [chunk_of "Book A" "meta" "A new highlight"]))
                 (Some hello_world_dir) [] in
  let r := parse_clippings (U := ascii_only) (str "out") false w in
  files w !! str "Book A.txt" = Some (str "Hello world" ++ [NL])
  ∧ files r.1 !! str "Book A.txt"
    = Some (str "Hello world" ++ [NL] ++ str "A new highlight"
            ++ [NL; NL] ++ str "..." ++ [NL; NL])
  ∧ r.2 = Ok ∅
  ∧ ¬ (∀ output_files, r.2 = Ok output_files → str "out/Book A.txt" ∈ output_files).
Proof.
  assert ((parse_clippings (U := ascii_only) (str "out") false
             (World (Some (export_of [chunk_of "Book A" "meta" "A new highlight"]))
                (Some hello_world_dir) [])).2 = Ok ∅) as Hr by by_compute.
  simpl. split; [by_compute|]. split; [by_compute|]. split; [exact Hr|].
  intros H. specialize (H ∅ Hr). set_solver.
Qed.

Lemma returns_created_witness :
  let w := World (Some (export_of [chunk_of "Book A" "meta" "A new highlight";
                                   chunk_of "Book B" "meta" "Another one"]))
                 (Some hello_world_dir) [] in
  let r := parse_clippings (U := ascii_only) (str "out") false w in
  r.2 = Ok {[ str "out/Book B.txt" ]}
  ∧ ({[ str "out/Book B.txt" ]} : gset text) = created (str "out") (files w) (files r.1).
Proof.
  simpl. split; [by_compute|].
  apply (parse_clippings_returns_created (U := ascii_only) (str "out") false).
  by_compute.
Defined.

(** ** The edit distance *)

Lemma lev_nil_r (s : text) : lev s [] = length s.
Proof. by destruct s. Qed.

Lemma lev_cons_cons (a b : char) (s t : text) :
  lev (a :: s) (b :: t)
  = min3 (S (lev s (b :: t))) (S (lev (a :: s) t))
         ((if chr_eqb a b then 0 else 1) + lev s t).
Proof. reflexivity. Qed.

Lemma lev_row0_suffixes (t : text) : lev_row0 t = lev [] <$> suffixes t.
Proof. induction t as [|b t IH]; simpl; [done|]. by rewrite IH. Qed.

Lemma lev_row_suffixes (a : char) (s t : text) :
  lev_row a t (lev s <$> suffixes t) = lev (a :: s) <$> suffixes t.
Proof.
  induction t as [|b t IH].
  - simpl. by rewrite lev_nil_r.
  - change (suffixes (b :: t)) with ((b :: t) :: suffixes t).
    rewrite !fmap_cons. cbn [lev_row]. rewrite IH. f_equal.
    rewrite lev_cons_cons. by destruct t.
Qed.

(** The table computes the distance that the recurrence defines. *)
Lemma distance_lev (s t : text) : distance s t = lev s t.
Proof.
  unfold distance.
  assert (foldr (λ a prev, lev_row a t prev) (lev_row0 t) s = lev s <$> suffixes t) as ->.
  { induction s as [|a s IH]; simpl.
    - apply lev_row0_suffixes.
    - rewrite IH. apply lev_row_suffixes. }
  by destruct t.
Qed.

(** ** The pass over the neighbours *)

Lemma calculate_similarity_present (a b : text) :
  a ≠ [] ∨ b ≠ [] →
  calculate_similarity (Some a) (Some b) = Ok (similarity a b).
Proof.
  intros H. unfold calculate_similarity, similarity. rewrite distance_lev.
  destruct (length a `max` length b =? 0)%nat eqn:E; [|done].
  apply Nat.eqb_eq in E. destruct a, b; simpl in *; (lia || tauto).
Qed.

Lemma shift_up_cons {A} (a b : A) (l : list A) :
  shift_up (a :: b :: l) = Some b :: shift_up (b :: l).
Proof. reflexivity. Qed.

(** On a frame that has rows, [apply] gives the series of the
    similarities. *)
Lemma filter_repeated_highlights_rows (r : row) (rest : list row) :
  filter_repeated_highlights (r :: rest)
  = let df_highlights := r :: rest in
    correlaton ←
      map_result (λ x, calculate_similarity (Some x.1) x.2)
                 (zip (highlight <$> df_highlights) (shift_up (highlight <$> df_highlights)));
    let time_diff :=
      zip_with (λ next d, (λ n, seconds n - seconds d)%Z <$> next)
               (shift_up (date <$> df_highlights)) (date <$> df_highlights) in
    let correlaton_greater := (λ c, 0x1.3333333333333p-2 <? c)%float <$> correlaton in
    let time_diff_greater :=
      (λ t, match t with Some t => (t <? 60)%Z | None => false end) <$> time_diff in
    let to_remove := zip_with andb correlaton_greater time_diff_greater in
    mret (unmarked df_highlights to_remove).
Proof. by destruct rest. Qed.

(** The frame with one more row in front. *)
Lemma filter_repeated_highlights_cons (r next : row) (rest : list row) :
  filter_repeated_highlights (r :: next :: rest)
  = c ← calculate_similarity (Some (highlight r)) (Some (highlight next));
    kept ← filter_repeated_highlights (next :: rest);
    mret (if (0x1.3333333333333p-2 <? c)%float
             && (seconds (date next) - seconds (date r) <? 60)%Z
          then kept else r :: kept).
Proof.
  rewrite !filter_repeated_highlights_rows. cbv zeta.
  rewrite !fmap_cons, !shift_up_cons.
  cbn [zip zip_with map_result fst snd].
  unfold mbind, result_bind, mret, result_ret.
  destruct (calculate_similarity (Some (highlight r)) (Some (highlight next))) as [c|e];
    [|done].
  destruct (map_result _ _) as [cs|e']; [|done].
  simpl. by destruct (_ && _).
Qed.

Lemma redundant_needs_a_minute (r next : row) :
  (60 ≤ seconds (date next) - seconds (date r))%Z → redundant r next = false.
Proof.
  intros H. unfold redundant. apply andb_false_iff. right. by apply Z.ltb_ge.
Qed.

(** A frame without rows: the filter raises [ValueError]. *)
Lemma filter_of_no_rows_raises : filter_repeated_highlights [] = Raise ValueError.
Proof. reflexivity. Qed.

(** The pass on a frame that has rows. *)
Lemma filter_repeated_highlights_collapse (r : row) (rest : list row) :
  no_empty_pair (r :: rest) → filter_repeated_highlights (r :: rest) = Ok (collapse (r :: rest)).
Proof.
  revert r. induction rest as [|next rest IH]; intros r.
  - intros _. reflexivity.
  - intros [Hne Hrest]. rewrite filter_repeated_highlights_cons.
    rewrite calculate_similarity_present by done. rewrite IH by done.
    reflexivity.
Qed.

(** C8, as the code has it. On a frame that has rows and in which no
    two neighbours have both an empty body, [filter_repeated_highlights]
    is one pass over the neighbours: a record is dropped exactly when
    its similarity to its successor (one less the edit distance over
    the length of the longer body, in binary64) is above 0.30 and the
    successor was added less than a minute later; the last record,
    which has no successor, is kept.  On a frame without rows the
    filter raises [ValueError]. *)
Theorem filter_is_one_pass (df : list row) :
  no_empty_pair df →
  filter_repeated_highlights df
  = match df with
    | [] => Raise ValueError
    | _ :: _ => Ok (collapse df)
    end.
Proof.
  destruct df as [|r rest].
  - intros _. apply filter_of_no_rows_raises.
  - apply filter_repeated_highlights_collapse.
Qed.

(** Two similar records ten seconds apart collapse to the later one;
    ninety seconds apart, both are kept. *)
Lemma filter_is_one_pass_witness :
  filter_repeated_highlights
    [fox_at "The quick brown fox" 14 32 10; fox_at "The quick brown fox." 14 32 20]
  = Ok [fox_at "The quick brown fox." 14 32 20]
  ∧ filter_repeated_highlights
      [fox_at "The quick brown fox" 14 32 10; fox_at "The quick brown fox." 14 33 40]
    = Ok [fox_at "The quick brown fox" 14 32 10; fox_at "The quick brown fox." 14 33 40].
Proof.
  split.
  - rewrite (filter_is_one_pass
               [fox_at "The quick brown fox" 14 32 10;
                fox_at "The quick brown fox." 14 32 20]).
    + unfold collapse, redundant, similarity. rewrite <- distance_lev. by_compute.
    + simpl. split; [left; discriminate|exact I].
  - rewrite (filter_is_one_pass
               [fox_at "The quick brown fox" 14 32 10;
                fox_at "The quick brown fox." 14 33 40]).
    + unfold collapse, redundant, similarity. rewrite <- distance_lev. by_compute.
    + simpl. split; [left; discriminate|exact I].
Defined.

(** The frame of an empty book file has no rows, and the filter raises
    on it: there is no pass to make. *)
Example filter_of_empty_frame :
  filter_repeated_highlights [] = Raise ValueError
  ∧ create_df_from_highlights_list (U := ascii_only) [[]] = Raise ValueError.
Proof. split; reflexivity. Qed.

(** C8, against the claim. The similarity of two empty bodies is not
    0: the division by the length of the longer body raises
    [ZeroDivisionError], and so does the filter on a frame with two
    such neighbours. *)
Lemma similarity_of_empty_bodies_raises :
  calculate_similarity (Some []) (Some []) = Raise ZeroDivisionError
  ∧ calculate_similarity (Some []) (Some []) ≠ Ok 0%float
  ∧ filter_repeated_highlights [fox_at "" 14 32 10; fox_at "" 14 32 20]
    = Raise ZeroDivisionError.
Proof. split; [by_compute|]. split; [by_compute|by_compute]. Qed.

(** A missing body gives similarity 0. *)
Lemma similarity_of_missing_body (a : option text) :
  calculate_similarity a None = Ok 0%float.
Proof. by destruct a. Qed.

(** One empty body next to a non-empty one gives similarity 0. *)
Example similarity_of_one_empty_body :
  calculate_similarity (Some []) (Some (str "The quick brown fox")) = Ok 0%float
  ∧ calculate_similarity (Some (str "The quick brown fox")) (Some []) = Ok 0%float.
Proof. split; by_compute. Qed.

(** At distance 7 over length 10 the quotient is rounded: the
    similarity is the double above 0.3, and it counts as greater. *)
Example similarity_at_seven_tenths :
  calculate_similarity (Some (str "abcdefghij")) (Some (str "abcXXXXXXX"))
  = Ok 0x1.3333333333334p-2%float
  ∧ redundant (fox_at "abcdefghij" 14 32 10) (fox_at "abcXXXXXXX" 14 32 20) = true.
Proof.
  split; [by_compute|].
  unfold redundant, similarity. rewrite <- distance_lev. by_compute.
Qed.

(** ** Splitting *)

Lemma startswith_head (c0 c : char) (sep' s : text) :
  c ≠ c0 → startswith (c0 :: sep') (c :: s) = false.
Proof.
  intros H. unfold startswith. apply bool_decide_eq_false. simpl. congruence.
Qed.

Lemma split_go_skip (sep l rest cur : text) :
  split_go sep (length l) cur (l ++ rest) = split_go sep 0 cur rest.
Proof. induction l as [|c l IH]; [done|]. simpl. apply IH. Qed.

(** The first piece ends at the first separator. *)
Lemma split_go_first (c0 : char) (sep' pre rest cur : text) :
  c0 ∉ pre →
  split_go (c0 :: sep') 0 cur (pre ++ (c0 :: sep') ++ rest)
  = (reverse cur ++ pre) :: split_go (c0 :: sep') 0 [] rest.
Proof.
  revert cur. induction pre as [|c pre IH]; intros cur Hpre.
  - rewrite app_nil_r. simpl app at 1.
    cbn [split_go].
    assert (startswith (c0 :: sep') (c0 :: sep' ++ rest) = true) as ->
      by (apply startswith_spec; eauto).
    f_equal. simpl. rewrite Nat.sub_0_r. apply split_go_skip.
  - apply not_elem_of_cons in Hpre as [Hc Hpre].
    simpl. rewrite startswith_head by done. rewrite IH by done.
    by rewrite reverse_cons, <- app_assoc.
Qed.

(** A text without the first character of the separator is one piece. *)
Lemma split_go_absent (c0 : char) (sep' s cur : text) :
  c0 ∉ s → split_go (c0 :: sep') 0 cur s = [reverse cur ++ s].
Proof.
  revert cur. induction s as [|c s IH]; intros cur Hs; simpl.
  - by rewrite app_nil_r.
  - apply not_elem_of_cons in Hs as [Hc Hs].
    rewrite startswith_head by done. rewrite IH by done.
    by rewrite reverse_cons, <- app_assoc.
Qed.

Lemma split_first (c0 : char) (sep' pre rest : text) :
  c0 ∉ pre →
  split (c0 :: sep') (pre ++ (c0 :: sep') ++ rest) = pre :: split (c0 :: sep') rest.
Proof. intros H. unfold split. by rewrite split_go_first. Qed.

Lemma split_absent (c0 : char) (sep' s : text) :
  c0 ∉ s → split (c0 :: sep') s = [s].
Proof. intros H. unfold split. by rewrite split_go_absent. Qed.

(** ** Timestamps *)

Section TimestampFacts.
Context `{U : Unicode}.

Lemma item_bind {A B} (a b : A) (l : list A) (f : A → result B) :
  (item (a :: b :: l) 1 ≫= f) = f b.
Proof. reflexivity. Qed.

Lemma unpack2_bind {A B} (a b : A) (f : A * A → result B) :
  (unpack2 [a; b] ≫= f) = f (a, b).
Proof. reflexivity. Qed.

Lemma strptime_example :
  strptime (str "5 March 2021 14:32:10") = Ok (Datetime 2021 3 5 14 32 10).
Proof. by_compute. Qed.

(** C3, as the code has it. The metadata line must have a day of the
    week before the date: for a line ["<pre>Added on <weekday>, 5 March
    2021 14:32:10"] (no ["A"] in [pre] or in the weekday, no [","] in
    the weekday) the text after ["Added on "] is split on [", "] into
    exactly two pieces, and the second piece is parsed with the fixed
    format to the instant 2021-03-05T14:32:10. *)
Theorem timestamp_after_weekday (pre weekday : text) :
  65%N ∉ pre → 65%N ∉ weekday → 44%N ∉ weekday →
  extract_date_and_time
    (pre ++ str "Added on " ++ weekday ++ str ", " ++ str "5 March 2021 14:32:10")
  = Ok (Datetime 2021 3 5 14 32 10).
Proof.
  intros Hpre HA Hcomma. unfold extract_date_and_time.
  change (str "Added on ") with (65%N :: str "dded on ").
  rewrite split_first by done.
  rewrite split_absent.
  2:{ rewrite !not_elem_of_app. split; [done|]. split; vm_compute; set_solver. }
  rewrite item_bind.
  change (str ", ") with (44%N :: str " ").
  rewrite split_first by done.
  change (split _ (str "5 March 2021 14:32:10")) with [str "5 March 2021 14:32:10"].
  rewrite unpack2_bind. apply strptime_example.
Qed.

End TimestampFacts.

Lemma timestamp_after_weekday_witness :
  extract_date_and_time (U := ascii_only) meta_with_weekday
  = Ok (Datetime 2021 3 5 14 32 10).
Proof.
  apply (timestamp_after_weekday (U := ascii_only)
           (str "Your Highlight on page 12 | ") (str "Friday"));
    vm_compute; set_solver.
Defined.

(** C3, against the claim. On the metadata line of the specification
    the text after ["Added on "] has no [", "]: the split gives one
    piece, the unpacking into two names raises [ValueError], and no
    instant is returned. *)
Lemma timestamp_without_weekday_raises :
  extract_date_and_time (U := ascii_only) meta_without_weekday = Raise ValueError
  ∧ extract_date_and_time (U := ascii_only) meta_without_weekday
    ≠ Ok (Datetime 2021 3 5 14 32 10).
Proof. split; by_compute. Qed.

(** ** The frame of highlights *)

Section FrameFacts.
Context `{U : Unicode}.

Lemma search_meta_line (line : text) :
  search_meta line = true → line ≠ str "..." ∧ line ≠ [].
Proof. intros H. split; intros ->; by vm_compute in H. Qed.



End FrameFacts.



(** ** The end-to-end scenario *)

(** C2, against the claim. After the run on the scenario, the file of
    ["Book A"] has three body lines, not two: both near-duplicates are
    in the file.  It is so as well for the records in the layout of the
    e-reader, when the three records of ["Book A"] come after the
    record of ["Book B"]. *)
Lemma near_duplicates_are_persisted :
  let r := parse_clippings (U := ascii_only) (str "out") true
             (World (Some scenario_source) None []) in
  let r' := parse_clippings (U := ascii_only) (str "out") true
              (World (Some scenario_as_exported) None []) in
  body_lines <$> (files r.1 !! str "Book A.txt")
  = Some [str "The quick brown fox"; str "The quick brown fox.";
          str "Something else entirely"]
  ∧ (length ∘ body_lines) <$> (files r.1 !! str "Book A.txt") ≠ Some 2
  ∧ body_lines <$> (files r'.1 !! str "Book A.txt")
    = Some [str "The quick brown fox"; str "The quick brown fox.";
            str "Something else entirely"].
Proof. repeat split; by_compute. Qed.

(** ** The parenthesized groups of a title *)

Lemma re_sub_go_skip (m : text → option (text * nat)) (l rest : text) :
  re_sub_go m (length l) (l ++ rest) = re_sub_go m 0 rest.
Proof. induction l as [|c l IH]; [done|]. simpl. apply IH. Qed.

Lemma lazy_close_spec (inner rest : text) (n : nat) :
  41%N ∉ inner → NL ∉ inner →
  lazy_close n (inner ++ 41%N :: rest) = Some (n + length inner).
Proof.
  revert n. induction inner as [|c inner IH]; intros n Hclose Hnl; simpl.
  - f_equal. lia.
  - apply not_elem_of_cons in Hclose as [Hc Hclose].
    apply not_elem_of_cons in Hnl as [Hn Hnl].
    unfold chr_eqb. rewrite (proj2 (N.eqb_neq c 41)), (proj2 (N.eqb_neq c NL)) by done.
    rewrite IH by done. f_equal. lia.
Qed.

Lemma m_paren_other (c : char) (s : text) : c ≠ 40%N → m_paren (c :: s) = None.
Proof.
  intros H. unfold m_paren. destruct s as [|c1 r]; [done|].
  unfold chr_eqb. by rewrite (proj2 (N.eqb_neq c 40)).
Qed.

Lemma m_paren_group (c1 : char) (inner rest : text) :
  c1 ≠ NL → 41%N ∉ inner → NL ∉ inner →
  m_paren (40%N :: c1 :: inner ++ 41%N :: rest)
  = Some (str "- " ++ c1 :: inner, length inner + 3).
Proof.
  intros Hc1 Hclose Hnl. unfold m_paren.
  change (chr_eqb 40 40) with true.
  unfold chr_eqb at 1. rewrite (proj2 (N.eqb_neq c1 NL)) by done.
  cbn [andb negb]. rewrite lazy_close_spec by done.
  change (take (1 + length inner) (c1 :: inner ++ 41%N :: rest))
    with (c1 :: take (length inner) (inner ++ 41%N :: rest)).
  rewrite take_app_length. do 2 f_equal. lia.
Qed.

Lemma re_sub_go_0 (m : text → option (text * nat)) (c : char) (s : text) :
  re_sub_go m 0 (c :: s)
  = match m (c :: s) with
    | Some (repl, n) => repl ++ re_sub_go m (n - 1) s
    | None => c :: re_sub_go m 0 s
    end.
Proof. reflexivity. Qed.

(** C9, as the code has it. The third step of the sanitizer rewrites
    EVERY parenthesized group, not only the first: a group ["(...)"]
    (its first character anything but a newline, no [")"] and no
    newline after that) that comes after text without ["("] is
    replaced by ["- "] and its inner text, and the step goes on in the
    same way on the text after the group. *)
Theorem every_group_is_rewritten (pre : text) (c1 : char) (inner rest : text) :
  40%N ∉ pre → c1 ≠ NL → 41%N ∉ inner → NL ∉ inner →
  re_sub m_paren (pre ++ [40%N] ++ (c1 :: inner) ++ [41%N] ++ rest)
  = pre ++ str "- " ++ (c1 :: inner) ++ re_sub m_paren rest.
Proof.
  intros Hpre Hc1 Hclose Hnl. unfold re_sub.
  induction pre as [|c pre IH].
  - change ([] ++ [40%N] ++ (c1 :: inner) ++ [41%N] ++ rest)
      with (40%N :: c1 :: inner ++ 41%N :: rest).
    rewrite re_sub_go_0, m_paren_group by done.
    assert (re_sub_go m_paren (length inner + 3 - 1) (c1 :: inner ++ 41%N :: rest)
            = re_sub_go m_paren 0 rest) as ->.
    { replace (length inner + 3 - 1) with (length (c1 :: inner ++ [41%N]))
        by (simpl; rewrite length_app; simpl; lia).
      replace (c1 :: inner ++ 41%N :: rest) with ((c1 :: inner ++ [41%N]) ++ rest)
        by (by simpl; rewrite <- app_assoc).
      apply re_sub_go_skip. }
    by rewrite <- app_assoc.
  - apply not_elem_of_cons in Hpre as [Hc Hpre].
    change ((c :: pre) ++ [40%N] ++ (c1 :: inner) ++ [41%N] ++ rest)
      with (c :: (pre ++ [40%N] ++ (c1 :: inner) ++ [41%N] ++ rest)).
    rewrite re_sub_go_0, m_paren_other by done.
    rewrite IH by done. reflexivity.
Qed.

(** Both groups of ["A (b) (c)"] are rewritten. *)
Lemma every_group_is_rewritten_witness :
  re_sub m_paren (str "A (b) (c)") = str "A - b - c".
Proof.
  change (str "A (b) (c)")
    with (str "A " ++ [40%N] ++ (98%N :: []) ++ [41%N] ++ str " (c)").
  rewrite every_group_is_rewritten by (vm_compute; set_solver).
  change (str " (c)") with (str " " ++ [40%N] ++ (99%N :: []) ++ [41%N] ++ []).
  rewrite every_group_is_rewritten by (vm_compute; set_solver).
  reflexivity.
Defined.

(** C9, against the claim. The second group of ["A (b) (c)"] is
    rewritten with the ["- "] prefix too: the sanitizer gives
    ["A - b - c"], where rewriting the first group only would give
    ["A - b c"]. *)
Lemma later_group_is_rewritten :
  remove_chars (U := ascii_only) (str "A (b) (c)") [] = str "A - b - c"
  ∧ sanitize_first_group_only (U := ascii_only) (str "A (b) (c)") [] = str "A - b c"
  ∧ remove_chars (U := ascii_only) (str "A (b) (c)") []
    ≠ sanitize_first_group_only (U := ascii_only) (str "A (b) (c)") [].
Proof. repeat split; by_compute. Qed.

(** The sanitizer on the title of the specification. *)
Example remove_chars_sapiens :
  remove_chars (U := ascii_only) (str "Sapiens: A Brief History (Illustrated)") []
  = str "Sapiens - A Brief History - Illustrated".
Proof. by_compute. Qed.

(** * Further properties of the text stage *)

Lemma split_line (line rest : text) :
  NL ∉ line → split [NL] (line ++ NL :: rest) = line :: split [NL] rest.
Proof. intros H. by apply (split_first NL [] line rest). Qed.

Lemma split_blank_line (rest : text) : split [NL] (NL :: rest) = [] :: split [NL] rest.
Proof. apply (split_line [] rest), not_elem_of_nil. Qed.

Lemma split_last_line (line : text) : NL ∉ line → split [NL] line = [line].
Proof. apply split_absent. Qed.

Section ParserExtras.
Context `{U : Unicode}.
Variable output_directory : text.
Variable include_clip_meta : bool.

#[local] Abbreviation process_highlight := (process_highlight output_directory include_clip_meta).
#[local] Abbreviation parse_clippings := (parse_clippings output_directory include_clip_meta).
#[local] Abbreviation entry := (entry include_clip_meta).
#[local] Abbreviation classify := (classify output_directory).
#[local] Abbreviation pure_step := (pure_step output_directory include_clip_meta).
#[local] Abbreviation pure_loop := (pure_loop output_directory include_clip_meta).
#[local] Abbreviation absorbed := (absorbed output_directory).

(** The record that a chunk with a title, a metadata line, a third line
    and a non-empty body stands for. *)
Lemma classify_lines h first title' clip_meta blank body more :
  tail (split [NL] h) = (first :: title') :: clip_meta :: blank :: body :: more →
  body ≠ [] →
  classify h
  = Clipping (remove_chars (if chr_eqb first BOM then title' else first :: title')
                output_directory ++ str ".txt") body clip_meta.
Proof.
  intros Hlines Hbody. unfold classify. rewrite Hlines. simpl.
  by rewrite bool_decide_eq_false_2.
Qed.

Lemma classify_malformed h : classify h = Malformed ↔ malformed h.
Proof.
  unfold classify, malformed. set (lines := tail (split [NL] h)).
  destruct (length lines <? 3)%nat eqn:Hlen.
  - apply Nat.ltb_lt in Hlen. split; [done|]. intros [H|(body & H3 & _)]; [lia|].
    apply lookup_lt_Some in H3. lia.
  - apply Nat.ltb_ge in Hlen. destruct (lines !! 3) as [body|] eqn:H3.
    + assert (is_Some (lines !! 1)) as [clip_meta H1].
      { apply lookup_lt_is_Some. apply lookup_lt_Some in H3. lia. }
      assert (is_Some (lines !! 0)) as [title H0].
      { apply lookup_lt_is_Some. apply lookup_lt_Some in H3. lia. }
      rewrite H0, H1. case_bool_decide as Hbody.
      * split; [done|]. intros [H|(b & [= <-] & Hb & _)]; [|done].
        apply lookup_lt_Some in H3. lia.
      * destruct title as [|first rest].
        -- split; [|done]. intros _. right. by exists body.
        -- split; [done|]. intros [H|(b & _ & _ & [=])].
           apply lookup_lt_Some in H3. lia.
    + split; [|done]. intros _. left. apply lookup_ge_None in H3. lia.
Qed.

(** The loop ends without an exception exactly when no chunk is
    malformed. *)
Lemma pure_loop_outcome chunks out d :
  names_known out d →
  match (pure_loop out d chunks).2 with
  | Ok _ => Forall (λ h, ¬ malformed h) chunks
  | Raise e => e = IndexError ∧ Exists malformed chunks
  end.
Proof.
  revert out d. induction chunks as [|h chunks IH]; intros out d Hk; simpl.
  - constructor.
  - destruct (pure_step out d h) as [d1 [out1|e]] eqn:Hstep;
      destruct (pure_step_facts _ _ _ _ _ _ _ Hk Hstep) as [_ Hr].
    + destruct Hr as (Hk1 & _ & _). specialize (IH out1 d1 Hk1).
      assert (¬ malformed h) as Hh.
      { rewrite <- classify_malformed. intros Hm.
        unfold pure_step in Hstep. by rewrite Hm in Hstep. }
      destruct (pure_loop out1 d1 chunks) as [d2 [out2|e]]; simpl in *.
      * by constructor.
      * destruct IH as [-> IH]. split; [done|]. by right.
    + destruct Hr as (_ & -> & Hm). simpl. split; [done|]. left.
      by apply classify_malformed.
Qed.


(** A record whose title line is empty ends the run: [title[0]] raises
    [IndexError], and nothing is written for the record. *)
Theorem empty_title_raises (output_files : gset text) (highlight : text) (w : world)
    (clip_meta blank body : text) (more : list text) :
  tail (split [NL] highlight) = [] :: clip_meta :: blank :: body :: more →
  body ≠ [] →
  process_highlight output_files highlight w = (w, Raise IndexError).
Proof.
  intros Hlines Hbody. unfold process_highlight. rewrite Hlines. simpl.
  unfold_monad. by rewrite bool_decide_eq_false_2.
Qed.

(** Files only grow: a file that is in the output directory before the
    run is there after it, with its text as it was and, possibly, more
    text after it.  This holds also when the run raises. *)
Theorem parse_clippings_append_only (w : world) (name existing : text) :
  files w !! name = Some existing →
  ∃ added, files (parse_clippings w).1 !! name = Some (existing ++ added).
Proof.
  intros Hname.
  pose proof (parse_clippings_run output_directory include_clip_meta w) as Hrun.
  destruct (source w) as [content|].
  - case_bool_decide.
    + rewrite Hrun. exists []. by rewrite app_nil_r.
    + destruct Hrun as (w' & -> & _ & Hd). simpl. unfold files at 1. rewrite Hd. simpl.
      destruct (pure_loop ∅ (files w) (split (str "==========") content))
        as [d1 r] eqn:Hloop.
      destruct (pure_loop_facts _ _ _ _ _ _ _ (names_known_empty _) Hloop) as [Hg _].
      by apply Hg.
  - rewrite Hrun. exists []. by rewrite app_nil_r.
Qed.

Lemma pure_loop_absorbs chunks out d d' out' :
  names_known out d →
  pure_loop out d chunks = (d', Ok out') →
  Forall (absorbed d') chunks.
Proof.
  revert out d. induction chunks as [|h chunks IH]; intros out d Hk; simpl.
  - constructor.
  - destruct (pure_step out d h) as [d1 [out1|e]] eqn:Hstep; [|done].
    destruct (pure_step_facts _ _ _ _ _ _ _ Hk Hstep) as [_ (Hk1 & Habs & _)].
    intros Hloop. constructor; [|by eapply IH].
    destruct (pure_loop_facts _ _ _ _ _ _ _ Hk1 Hloop) as [Hg _].
    by eapply absorbed_grows.
Qed.

(** After a run that returns, the body of a record occurs in the file
    of its title, for every record that follows a divider line: a chunk
    of the source whose lines after the first are a title line that is
    not empty, the metadata line, one more line and a body that is not
    empty.  (The first record of an export file follows no divider
    line and is not such a chunk.) *)
Theorem body_after_divider_is_kept (w w' : world) (output_files : gset text)
    (content highlight : text) (first : char) (title' clip_meta blank body : text)
    (more : list text) :
  let title := if chr_eqb first BOM then title' else first :: title' in
  let name := remove_chars title output_directory ++ str ".txt" in
  parse_clippings w = (w', Ok output_files) →
  source w = Some content →
  highlight ∈ split (str "==========") content →
  tail (split [NL] highlight) = (first :: title') :: clip_meta :: blank :: body :: more →
  body ≠ [] →
  ∃ book, files w' !! name = Some book ∧ ∃ pre post, book = pre ++ body ++ post.
Proof.
  intros title name Hrun Hsrc Hin Hlines Hbody.
  pose proof (parse_clippings_run output_directory include_clip_meta w) as H.
  rewrite Hsrc in H. case_bool_decide; [congruence|].
  destruct H as (w1 & Hrun1 & _ & Hd). rewrite Hrun in Hrun1.
  injection Hrun1 as <- Hr. unfold files at 1. rewrite Hd. simpl.
  destruct (pure_loop ∅ (files w) (split (str "==========") content)) as [d1 r] eqn:Hloop.
  simpl in *. subst r.
  pose proof (pure_loop_absorbs _ _ _ _ _ (names_known_empty _) Hloop) as Habs.
  rewrite Forall_forall in Habs. specialize (Habs _ Hin). unfold absorbed in Habs.
  rewrite (classify_lines _ _ _ _ _ _ _ Hlines Hbody) in Habs.
  destruct Habs as (book & Hbook & Hc). exists book. split; [done|].
  by apply contains_spec.
Qed.

(** After a run that returns, a second run on the state it left returns
    too, with the empty set: no file is created. *)
Theorem second_run_creates_nothing (w : world) (output_files : gset text) :
  (parse_clippings w).2 = Ok output_files →
  (parse_clippings (parse_clippings w).1).2 = Ok ∅.
Proof.
  pose proof (parse_clippings_run output_directory include_clip_meta w) as H1.
  destruct (source w) as [content|] eqn:Hsrc.
  - case_bool_decide as Hout; [by rewrite H1|].
    destruct H1 as (w1 & -> & Hs1 & Hd1). simpl. intros Hr.
    pose proof (parse_clippings_run output_directory include_clip_meta w1) as H2.
    rewrite Hs1 in H2. rewrite bool_decide_eq_false_2 in H2 by done.
    destruct H2 as (w2 & -> & _ & _). simpl.
    destruct (pure_loop ∅ (files w) (split (str "==========") content))
      as [d1 r] eqn:Hloop.
    unfold files at 1. rewrite Hd1. simpl in *. subst r.
    by erewrite pure_loop_again; [|apply names_known_empty|done|apply grows_refl].
  - by rewrite H1.
Qed.

(** The first line of every chunk is dropped.  A record that is not
    preceded by a delimiter line, as the first record of an export
    file, is read one line too far: its body is taken for the line
    after the body, which is empty, and the record is passed over. *)
Theorem record_without_leading_line_is_passed_over (output_files : gset text) (w : world)
    (title clip_meta body : text) :
  NL ∉ title → NL ∉ clip_meta → NL ∉ body →
  process_highlight output_files
    (title ++ NL :: clip_meta ++ NL :: NL :: body ++ [NL]) w
  = (w, Ok output_files).
Proof.
  intros Ht Hm Hb. unfold process_highlight.
  rewrite split_line by done. rewrite split_line by done.
  rewrite split_blank_line. rewrite split_line by done.
  rewrite (split_last_line []) by apply not_elem_of_nil.
  reflexivity.
Qed.

(** A record for a book that has no file yet: the file is made, with
    the entry of the record as its text, and its path is added to the
    set of created files. *)
Theorem new_book_is_created (output_files : gset text) (w : world) (d : gmap text text)
    (first : char) (title' clip_meta body : text) :
  let title := if chr_eqb first BOM then title' else first :: title' in
  let name := remove_chars title output_directory ++ str ".txt" in
  NL ∉ first :: title' → NL ∉ clip_meta → NL ∉ body → body ≠ [] →
  directory w = Some d → name ∉ dom d → name ∉ output_files →
  ∃ w', process_highlight output_files
          (NL :: (first :: title') ++ NL :: clip_meta ++ NL :: NL :: body ++ [NL]) w
        = (w', Ok ({[os_path_join output_directory name]} ∪ output_files))
        ∧ directory w' = Some (<[name := entry body clip_meta]> d).
Proof.
  intros title name Ht Hm Hb Hbody Hd Hdom Hout.
  set (h := NL :: (first :: title') ++ NL :: clip_meta ++ NL :: NL :: body ++ [NL]).
  destruct (process_highlight_pure output_directory include_clip_meta
              output_files h w d Hd) as (w' & Hrun & _ & Hd').
  assert (classify h = Clipping name body clip_meta) as Hc.
  { apply (classify_lines h first title' clip_meta [] body [[]]); [|done].
    unfold h. rewrite split_blank_line.
    rewrite split_line by done. rewrite split_line by done.
    rewrite split_blank_line. rewrite split_line by done.
    by rewrite (split_last_line []) by apply not_elem_of_nil. }
  unfold pure_step in *. rewrite Hc in *.
  rewrite !bool_decide_eq_true_2 in * by done. simpl in *.
  exists w'. by split.
Qed.

End ParserExtras.

(** ** The text stage on further examples *)

Ltac not_in_text := vm_compute; set_solver.

Lemma empty_title_raises_witness :
  let w := World None (Some ∅) [] in
  process_highlight (U := ascii_only) (str "out") true ∅ untitled_chunk w
  = (w, Raise IndexError).
Proof.
  apply (empty_title_raises (U := ascii_only) (str "out") true ∅ untitled_chunk _
           (str "meta") [] (str "body") [[]]); by_compute.
Defined.

Lemma parse_clippings_append_only_witness :
  ∃ added,
    files (parse_clippings (U := ascii_only) (str "out") true one_record_world).1
      !! str "Book A.txt"
    = Some ((str "Hello world" ++ [NL]) ++ added).
Proof.
  apply (parse_clippings_append_only (U := ascii_only) (str "out") true one_record_world).
  by_compute.
Defined.

Lemma body_after_divider_is_kept_witness :
  ∃ book,
    files (parse_clippings (U := ascii_only) (str "out") true one_record_world).1
      !! str "Book A.txt" = Some book
    ∧ ∃ pre post, book = pre ++ str "A new highlight" ++ post.
Proof.
  apply (body_after_divider_is_kept (U := ascii_only) (str "out") true
           one_record_world _ ∅ one_record_source
           (chunk_of "Book A" "meta" "A new highlight")
           66%N (str "ook A") (str "meta") [] (str "A new highlight") [[]]).
  - by_compute.
  - reflexivity.
  - vm_compute. repeat constructor.
  - by_compute.
  - by_compute.
Defined.

Lemma second_run_creates_nothing_witness :
  (parse_clippings (U := ascii_only) (str "out") true
     (parse_clippings (U := ascii_only) (str "out") true one_record_world).1).2
  = Ok ∅.
Proof.
  apply (second_run_creates_nothing (U := ascii_only) (str "out") true
           one_record_world ∅).
  by_compute.
Defined.

Lemma record_without_leading_line_witness :
  let w := World None (Some ∅) [] in
  process_highlight (U := ascii_only) (str "out") true ∅
    (str "Book A" ++ NL :: str "meta" ++ NL :: NL :: str "A new highlight" ++ [NL]) w
  = (w, Ok ∅).
Proof.
  apply (record_without_leading_line_is_passed_over (U := ascii_only) (str "out") true);
    not_in_text.
Defined.

Lemma new_book_is_created_witness :
  ∃ w',
    process_highlight (U := ascii_only) (str "out") false ∅
      (chunk_of "Book B" "meta" "Another one") (World None (Some hello_world_dir) [])
    = (w', Ok {[ str "out/Book B.txt" ]})
    ∧ directory w'
      = Some (<[ str "Book B.txt" :=
                   str "Another one" ++ [NL; NL] ++ str "..." ++ [NL; NL] ]>
                hello_world_dir).
Proof.
  destruct (new_book_is_created (U := ascii_only) (str "out") false ∅
              (World None (Some hello_world_dir) []) hello_world_dir
              66%N (str "ook B") (str "meta") (str "Another one"))
    as (w' & Hrun & Hd); [not_in_text..|by_compute|by_compute|not_in_text|not_in_text|].
  exists w'. split; [|exact Hd].
  etransitivity; [exact Hrun|]. f_equal; by_compute.
Defined.

(** A run over an export file without a delimiter line at its start:
    the only record is passed over and no file is made. *)
Example first_record_of_export_is_lost :
  let w := World (Some (str "Book A" ++ NL :: str "meta" ++ NL :: NL
                        :: str "A new highlight" ++ NL :: str "==========" ++ [NL]))
                 (Some ∅) [] in
  let r := parse_clippings (U := ascii_only) (str "out") true w in
  r.2 = Ok ∅ ∧ directory r.1 = Some ∅.
Proof. split; by_compute. Qed.

(** * Further properties of the title sanitizer *)

Lemma span_len_drop_head (p : char → bool) (s : text) (c : char) (r : text) :
  drop (span_len p s) s = c :: r → p c = false.
Proof.
  induction s as [|a s IH]; simpl; [done|].
  destruct (p a) eqn:Ha; simpl; [done|]. by intros [= <- _].
Qed.

Lemma span_len_0 (p : char → bool) (c : char) (s : text) :
  p c = false → span_len p (c :: s) = 0.
Proof. intros H. simpl. by rewrite H. Qed.

Section SanitizerExtras.
Context `{U : Unicode}.

Lemma trim_nonword_take (s : text) :
  ∃ n, trim_nonword s = take n (drop (span_len (λ c, negb (re_w c)) s) s).
Proof.
  unfold trim_nonword. eexists. rewrite drop_reverse. by rewrite reverse_involutive.
Qed.

Lemma trim_nonword_head (s : text) (c : char) (r : text) :
  trim_nonword s = c :: r → re_w c = true.
Proof.
  destruct (trim_nonword_take s) as [n ->].
  destruct (drop _ s) as [|a t] eqn:Hdrop; [by rewrite take_nil|].
  apply span_len_drop_head in Hdrop. destruct n; simpl; [done|].
  intros [= <- _]. by apply negb_false_iff.
Qed.

Lemma trim_nonword_last (s : text) (c : char) :
  last (trim_nonword s) = Some c → re_w c = true.
Proof.
  unfold trim_nonword. rewrite last_reverse.
  destruct (drop _ (reverse _)) as [|a t] eqn:Hdrop; [done|].
  apply span_len_drop_head in Hdrop. simpl. intros [= <-]. by apply negb_false_iff.
Qed.

Lemma slice_to_head (n : Z) (s : text) (c : char) (r : text) :
  slice_to n s = c :: r → ∃ r', s = c :: r'.
Proof.
  unfold slice_to. destruct (0 <=? n)%Z; destruct s as [|a s]; rewrite ?take_nil; try done;
    (destruct (_ : nat); simpl; [done|]; intros [= <- _]; eauto).
Qed.

Lemma slice_to_short (n : Z) (s : text) :
  (Z.of_nat (length (slice_to n s)) < n)%Z → slice_to n s = s.
Proof.
  unfold slice_to. destruct (0 <=? n)%Z eqn:Hn; [|lia].
  rewrite length_take. intros H. apply take_ge. lia.
Qed.

(** The characters of a sanitized title: an ASCII character of it is a
    letter, a digit, white space or one of [;], [,], [_], [-]; none of
    the reserved characters is in it. *)
Theorem sanitized_title_characters (s output_directory : text) :
  (∀ c, c ∈ remove_chars s output_directory → (c < 128)%N → plain_filename_char c = true)
  ∧ (∀ c, c ∈ reserved_chars → c ∉ remove_chars s output_directory).
Proof.
  assert (∀ c, c ∈ remove_chars s output_directory → (c < 128)%N →
               plain_filename_char c = true) as Hplain.
  { intros c Hc%remove_chars_filename_chars Hlt. apply N.ltb_lt in Hlt.
    assert (re_d c = ascii_digit c) as Hd
      by (unfold re_d, decimal; rewrite Hlt; by destruct (ascii_digit c)).
    assert (re_s c = ascii_space c) as Hs by (unfold re_s; by rewrite Hlt).
    assert (re_w c = ascii_lower c || ascii_upper c || ascii_digit c || chr_eqb c 95)
      as Hw by (unfold re_w; by rewrite Hlt).
    unfold filename_char in Hc. rewrite Hd, Hs, Hw in Hc. unfold plain_filename_char.
    destruct (ascii_lower c), (ascii_upper c), (ascii_digit c), (ascii_space c),
      (chr_eqb c 59), (chr_eqb c 44), (chr_eqb c 95), (chr_eqb c 45); done. }
  split; [done|]. intros c Hres Hin.
  assert (Forall (λ c, (c < 128)%N ∧ plain_filename_char c = false) reserved_chars)
    as Hall by (vm_compute; repeat constructor).
  rewrite Forall_forall in Hall. destruct (Hall c Hres) as [Hlt Hno].
  specialize (Hplain c Hin Hlt). congruence.
Qed.

(** The length of a sanitized title: with the path of the output
    directory it stays within 245 characters, when that path is not
    longer than 245 itself. *)
Theorem sanitized_title_length (s output_directory : text) :
  length output_directory ≤ 245 →
  length (remove_chars s output_directory) + length output_directory ≤ 245.
Proof.
  intros H. unfold remove_chars, slice_to.
  rewrite (proj2 (Z.leb_le 0 _)) by lia. rewrite length_take. lia.
Qed.

(** The ends of a sanitized title: it does not start with a character
    that is not a word character, and, unless it was cut to the maximal
    length, it does not end with one. *)
Theorem sanitized_title_ends (s output_directory : text) (c : char) :
  (∀ r, remove_chars s output_directory = c :: r → re_w c = true)
  ∧ (length (remove_chars s output_directory) + length output_directory < 245 →
     last (remove_chars s output_directory) = Some c → re_w c = true).
Proof.
  split.
  - intros r Hr. unfold remove_chars in Hr.
    apply slice_to_head in Hr as [r' Hr]. by eapply trim_nonword_head.
  - intros Hlen. unfold remove_chars in *. rewrite slice_to_short by lia.
    apply trim_nonword_last.
Qed.

Lemma re_sub_go_none (m : text → option (text * nat)) (s : text) :
  (∀ t, t `suffix_of` s → m t = None) → re_sub_go m 0 s = s.
Proof.
  induction s as [|c s IH]; intros H; [done|].
  rewrite re_sub_go_0, (H (c :: s)) by done. f_equal. apply IH.
  intros t Ht. apply H. by apply suffix_cons_r.
Qed.

Lemma re_sub_none (m : text → option (text * nat)) (s : text) :
  (∀ t, t `suffix_of` s → m t = None) → re_sub m s = s.
Proof. apply re_sub_go_none. Qed.

Lemma m_colon_none (t : text) : 58%N ∉ t → m_colon t = None.
Proof.
  intros H. unfold m_colon. destruct (drop _ t) as [|c r] eqn:Hdrop; [done|].
  assert (c ∈ t) as Hc.
  { eapply elem_of_sublist; [|apply (sublist_drop t (span_len (chr_eqb SP) t))].
    rewrite Hdrop. left. }
  unfold chr_eqb at 1. rewrite (proj2 (N.eqb_neq c 58)); [done|]. by intros ->.
Qed.

Lemma m_special_none (t : text) :
  (∀ c, c ∈ t → filename_char c = true) → m_special t = None.
Proof.
  intros H. unfold m_special. destruct t as [|c t]; [done|].
  rewrite span_len_0; [done|]. rewrite (H c) by left. done.
Qed.

Lemma replace_marks_none (s : text) : 63%N ∉ s → 38%N ∉ s → replace_marks s = s.
Proof.
  unfold replace_marks. induction s as [|c s IH]; [done|].
  intros [Hq Hqs]%not_elem_of_cons [Ha Has]%not_elem_of_cons.
  rewrite filter_cons_True by done. rewrite fmap_cons. simpl.
  unfold chr_eqb at 1. rewrite (proj2 (N.eqb_neq c 38)) by done.
  simpl. f_equal. by apply IH.
Qed.

Lemma trim_nonword_none (s : text) :
  (∀ c r, s = c :: r → re_w c = true) → (∀ c, last s = Some c → re_w c = true) →
  trim_nonword s = s.
Proof.
  intros Hhead Hlast. unfold trim_nonword.
  assert (span_len (λ c, negb (re_w c)) s = 0) as ->.
  { destruct s as [|c r]; [done|]. apply span_len_0. by rewrite (Hhead c r). }
  rewrite drop_0.
  assert (span_len (λ c, negb (re_w c)) (reverse s) = 0) as ->.
  { destruct (reverse s) as [|c r] eqn:Hrev; [done|]. apply span_len_0.
    rewrite (Hlast c); [done|]. rewrite <- (reverse_involutive s), Hrev.
    by rewrite last_reverse. }
  by rewrite drop_0, reverse_involutive.
Qed.

(** Sanitizing is stable: a sanitized title that was not cut to the
    maximal length is left as it is when it is sanitized again, so a
    book whose title is a sanitized title goes to the same file. *)
Theorem sanitizing_twice (s output_directory : text) :
  length (remove_chars s output_directory) + length output_directory < 245 →
  remove_chars (remove_chars s output_directory) output_directory
  = remove_chars s output_directory.
Proof.
  intros Hlen. set (r := remove_chars s output_directory) in *.
  assert (∀ c, c ∈ r → filename_char c = true) as Hchars
    by (intros c; apply remove_chars_filename_chars).
  assert (∀ c, filename_char c = false → c ∉ r) as Hnot.
  { intros c Hc Hin. apply Hchars in Hin. congruence. }
  unfold remove_chars at 1.
  rewrite (re_sub_none m_colon r).
  2:{ intros t Ht. apply m_colon_none. intros H. apply (Hnot 58%N); [done|].
      destruct Ht as [k ->]. apply elem_of_app. by right. }
  rewrite replace_marks_none by (by apply Hnot).
  rewrite (re_sub_none m_paren r).
  2:{ intros [|c t] Ht; [done|]. apply m_paren_other. intros ->.
      apply (Hnot 40%N); [done|]. destruct Ht as [k ->]. apply elem_of_app. right. left. }
  rewrite (re_sub_none m_special r).
  2:{ intros t Ht. apply m_special_none. intros c Hc. apply Hchars.
      destruct Ht as [k ->]. apply elem_of_app. by right. }
  rewrite trim_nonword_none.
  - unfold slice_to. rewrite (proj2 (Z.leb_le 0 _)) by lia. apply take_ge. lia.
  - intros c t Hr. unfold r, remove_chars in Hr.
    apply slice_to_head in Hr as [r' Hr]. by eapply trim_nonword_head.
  - unfold r, remove_chars in *. rewrite slice_to_short by lia. apply trim_nonword_last.
Qed.

End SanitizerExtras.

Lemma sanitized_title_length_witness :
  length (remove_chars (U := ascii_only)
            (str "Sapiens: A Brief History (Illustrated)") (str "out"))
  + length (str "out") ≤ 245.
Proof. apply (sanitized_title_length (U := ascii_only)). vm_compute. lia. Defined.

Lemma sanitizing_twice_witness :
  remove_chars (U := ascii_only)
    (remove_chars (U := ascii_only) (str "Sapiens: A Brief History (Illustrated)")
       (str "out")) (str "out")
  = remove_chars (U := ascii_only) (str "Sapiens: A Brief History (Illustrated)")
      (str "out").
Proof. apply (sanitizing_twice (U := ascii_only)). vm_compute. lia. Defined.

(** A title cut to the maximal length can end with a space, which a
    second pass removes: sanitizing is not stable at the cut. *)
Example sanitizing_twice_at_the_cut :
  let d := replicate 242 97%N in
  remove_chars (U := ascii_only) (str "ab cd") d = str "ab "
  ∧ remove_chars (U := ascii_only) (str "ab ") d = str "ab".
Proof. split; by_compute. Qed.

(** * Further properties of the timestamp extraction *)

(** A text in which the separator does not occur is one piece. *)
Lemma split_go_no_occurrence (sep s cur : text) :
  contains sep s = false → split_go sep 0 cur s = [reverse cur ++ s].
Proof.
  revert cur. induction s as [|c s IH]; intros cur; simpl.
  - intros _. by rewrite app_nil_r.
  - intros [Hs Hc]%orb_false_iff. rewrite Hs, IH by done.
    by rewrite reverse_cons, <- app_assoc.
Qed.

Lemma split_no_occurrence (sep s : text) : contains sep s = false → split sep s = [s].
Proof. intros H. unfold split. by rewrite split_go_no_occurrence. Qed.

Lemma split_go_not_nil (sep s cur : text) (k : nat) : split_go sep k cur s ≠ [].
Proof.
  revert k cur. induction s as [|c s IH]; intros k cur; simpl; [done|].
  destruct k; [|apply IH]. destruct (startswith sep (c :: s)); [done|apply IH].
Qed.

Section TimestampExtras.
Context `{U : Unicode}.

Lemma strptime_raises (s : text) (e : exn) : strptime s = Raise e → e = ValueError.
Proof.
  unfold strptime. intros H.
  repeat match type of H with
         | match ?x with _ => _ end = _ => destruct x
         | (if ?b then _ else _) = _ => destruct b
         end; congruence.
Qed.

(** The exceptions of the extraction. *)
Lemma extract_date_and_time_raises (line : text) (e : exn) :
  extract_date_and_time line = Raise e → e = IndexError ∨ e = ValueError.
Proof.
  unfold extract_date_and_time, item, unpack2. unfold mbind, result_bind.
  destruct (_ !! 1) as [rest|]; [|intros [= <-]; by left].
  destruct (split _ rest) as [|a [|b [|c l]]]; try (intros [= <-]; by right).
  intros H%strptime_raises. by right.
Qed.

(** A line without ["Added on "] has no timestamp: the second piece of
    the split is missing and the extraction raises [IndexError]. *)
Theorem timestamp_needs_added_on (line : text) :
  contains (str "Added on ") line = false →
  extract_date_and_time line = Raise IndexError.
Proof.
  intros H. unfold extract_date_and_time. by rewrite split_no_occurrence.
Qed.

(** The text after ["Added on "] must have [", "] exactly once: when
    splitting it on [", "] does not give two pieces, the unpacking
    raises [ValueError], whatever the date is. *)
Theorem timestamp_needs_one_comma (pre rest : text) :
  65%N ∉ pre →
  contains (str "Added on ") rest = false →
  length (split (str ", ") rest) ≠ 2 →
  extract_date_and_time (pre ++ str "Added on " ++ rest) = Raise ValueError.
Proof.
  intros Hpre Hrest Hlen. unfold extract_date_and_time.
  change (str "Added on ") with (65%N :: str "dded on ") in *.
  rewrite split_first by done. rewrite split_no_occurrence by done.
  rewrite item_bind. unfold unpack2.
  by destruct (split (str ", ") rest) as [|a [|b [|c l]]].
Qed.

End TimestampExtras.

Lemma timestamp_needs_added_on_witness :
  extract_date_and_time (U := ascii_only) (str "- Your Bookmark on page 12")
  = Raise IndexError.
Proof. apply (timestamp_needs_added_on (U := ascii_only)). by_compute. Defined.

(** The date of a US locale, with a comma after the day of the month,
    is not read. *)
Lemma timestamp_needs_one_comma_witness :
  extract_date_and_time (U := ascii_only) meta_us_format = Raise ValueError.
Proof.
  apply (timestamp_needs_one_comma (U := ascii_only)
           (str "- Your Highlight on page 12 | ")
           (str "Friday, March 5, 2021 2:32:10 PM")).
  - not_in_text.
  - by_compute.
  - by_compute.
Defined.

(** * Further properties of the frame of highlights *)

(** The filter returns on a frame that has rows, when no two neighbours
    have both an empty body. *)
Lemma filter_repeated_highlights_returns (df : list row) :
  df ≠ [] → no_empty_pair df → ∃ kept, filter_repeated_highlights df = Ok kept.
Proof.
  destruct df as [|r rest]; [done|]. intros _ H. eexists.
  by apply filter_repeated_highlights_collapse.
Qed.

(** The filter keeps the order of the rows and never drops the last
    row: what it returns is a sublist of the frame with the same last
    row. *)
Theorem filter_keeps_order_and_last (df kept : list row) :
  filter_repeated_highlights df = Ok kept →
  kept `sublist_of` df ∧ last kept = last df.
Proof.
  revert kept. induction df as [|r [|next rest] IH]; intros kept.
  - done.
  - by intros [= <-].
  - rewrite filter_repeated_highlights_cons. unfold mbind, result_bind.
    destruct (calculate_similarity _ _) as [c|e]; [|done].
    destruct (filter_repeated_highlights (next :: rest)) as [kept'|e]; [|done].
    destruct (IH kept' eq_refl) as [Hsub Hlast].
    assert (kept' ≠ []) as Hne.
    { intros ->. symmetry in Hlast. by apply last_None in Hlast. }
    intros [= <-]. destruct (_ && _).
    + split; [by apply sublist_cons|]. by rewrite last_cons_cons.
    + split; [by apply sublist_skip|].
      destruct kept' as [|k kept']; [done|]. by rewrite !last_cons_cons.
Qed.

Lemma filter_keeps_order_and_last_witness :
  [fox_at "The quick brown fox." 14 32 20]
    `sublist_of` [fox_at "The quick brown fox" 14 32 10;
                  fox_at "The quick brown fox." 14 32 20]
  ∧ last [fox_at "The quick brown fox." 14 32 20]
    = last [fox_at "The quick brown fox" 14 32 10;
            fox_at "The quick brown fox." 14 32 20].
Proof.
  apply (filter_keeps_order_and_last
           [fox_at "The quick brown fox" 14 32 10; fox_at "The quick brown fox." 14 32 20]).
  by_compute.
Defined.

Lemma no_empty_pair_nonempty (df : list row) :
  Forall (λ r, highlight r ≠ []) df → no_empty_pair df.
Proof.
  induction df as [|r [|next rest] IH]; [done..|].
  intros [Hr Hrest]%Forall_cons. split; [by left|by apply IH].
Qed.

Lemma entry_with_meta (b m rest : text) :
  entry true b m ++ rest = b ++ NL :: m ++ NL :: NL :: str "..." ++ NL :: NL :: rest.
Proof. unfold entry. by rewrite <- !app_assoc. Qed.

Lemma entry_without_meta (b m rest : text) :
  entry false b m ++ rest = b ++ NL :: NL :: str "..." ++ NL :: NL :: rest.
Proof. unfold entry. by rewrite <- !app_assoc. Qed.

Lemma dots_no_newline : NL ∉ str "...".
Proof. not_in_text. Qed.

Lemma DataFrame_columns (df : list row) :
  DataFrame (highlight <$> df) (meta <$> df) (date <$> df) = Ok df.
Proof.
  unfold DataFrame. rewrite !length_fmap, !Nat.eqb_refl. simpl. f_equal.
  induction df as [|[h m d] df IH]; [done|]. simpl. f_equal. apply IH.
Qed.

Section FrameExtras.
Context `{U : Unicode}.

Lemma sort_lines_kind lines m d t e :
  sort_lines lines m d t = Raise e → e = ValueError ∨ e = IndexError.
Proof.
  revert m d t. induction lines as [|l lines IH]; intros m d t; simpl; [done|].
  destruct (search_meta l); [|apply IH]. unfold mbind, result_bind.
  destruct (extract_date_and_time l) as [dt|e'] eqn:He; [apply IH|].
  intros [= <-]. apply extract_date_and_time_raises in He. tauto.
Qed.

Lemma sort_lines_nonempty lines m d t m' d' t' :
  sort_lines lines m d t = Ok (m', d', t') →
  Forall (λ l, l ≠ []) lines → Forall (λ l, l ≠ []) t → Forall (λ l, l ≠ []) t'.
Proof.
  revert m d t. induction lines as [|l lines IH]; intros m d t; simpl.
  - by intros [= _ _ <-].
  - intros Hsort [Hl Hlines]%Forall_cons Ht. destruct (search_meta l).
    + unfold mbind, result_bind in Hsort.
      destruct (extract_date_and_time l); [|done]. by eapply IH.
    + eapply IH; [done..|]. by constructor.
Qed.

Lemma DataFrame_nonempty t m d df :
  DataFrame t m d = Ok df → Forall (λ l, l ≠ []) t → Forall (λ r, highlight r ≠ []) df.
Proof.
  unfold DataFrame. destruct (_ && _); [|done]. intros [= <-].
  generalize (zip m d). intros md Ht. revert md.
  induction Ht as [|h t Hh _ IH]; intros [|x md]; simpl; constructor; [done|apply IH].
Qed.

(** The exceptions of the frame construction are [ValueError] and
    [IndexError]: a timestamp that is not read, columns of different
    lengths, or a frame without rows.  The division by zero of
    [calculate_similarity] is out of reach, since empty lines are
    filtered out before the frame is made.  In particular the lines of
    a book file without content, which are empty or separators, give a
    frame without rows, and the construction raises [ValueError]. *)
Theorem create_df_exceptions (higlights_list : list text) :
  (∀ e, create_df_from_highlights_list higlights_list = Raise e →
        e = ValueError ∨ e = IndexError)
  ∧ (Forall (λ line, line = [] ∨ line = str "...") higlights_list →
     create_df_from_highlights_list higlights_list = Raise ValueError).
Proof.
  unfold create_df_from_highlights_list. unfold mbind, result_bind. split.
  - intros e. destruct (sort_lines _ [] [] []) as [[[m d] t]|e'] eqn:Hsort.
    + destruct (DataFrame _ _ _) as [df|e'] eqn:Hdf.
      * destruct df as [|r df]; [intros [= <-]; by left|].
        intros Hraise. exfalso.
        destruct (filter_repeated_highlights_returns (r :: df)) as [kept Hkept];
          [done| |congruence].
        apply no_empty_pair_nonempty. eapply DataFrame_nonempty; [done|].
        apply Forall_reverse. eapply sort_lines_nonempty; [done| |constructor].
        apply Forall_forall. by intros l [[_ Hl] _]%list_elem_of_filter.
      * unfold DataFrame in Hdf. destruct (_ && _); [done|].
        injection Hdf as <-. intros [= <-]. by left.
    + intros [= <-]. by eapply sort_lines_kind.
  - intros Hlines.
    assert (filter (λ string, string ≠ str "..." ∧ string ≠ []) higlights_list = [])
      as ->; [|done].
    induction Hlines as [|l lines Hl _ IH]; [done|].
    rewrite filter_cons_False; [done|]. intros [? ?]. by destruct Hl.
Qed.

Lemma sort_lines_records (records : list row) m d t :
  Forall renderable records →
  sort_lines (mjoin ((λ r, [highlight r; meta r]) <$> records)) m d t
  = Ok (reverse (meta <$> records) ++ m,
        reverse (date <$> records) ++ d,
        reverse (highlight <$> records) ++ t).
Proof.
  intros H. revert m d t.
  induction H as [|r records (_ & _ & _ & _ & Hb & Hm & Hd) _ IH]; intros m d t; [done|].
  rewrite !fmap_cons. simpl. rewrite Hb, Hm, Hd. simpl. rewrite IH.
  by rewrite !reverse_cons, <- !app_assoc.
Qed.

Lemma paragraph_book_text (records : list row) :
  Forall renderable records →
  paragraph (book_text true records)
  = mjoin ((λ r, [highlight r; meta r; []; str "..."; []]) <$> records) ++ [[]].
Proof.
  unfold paragraph, book_text.
  induction 1 as [|r records (Hb & Hm & _) _ IH]; [done|].
  rewrite !fmap_cons. simpl. rewrite entry_with_meta.
  rewrite split_line by done. rewrite split_line by done.
  rewrite split_blank_line. rewrite split_line by apply dots_no_newline.
  rewrite split_blank_line. by rewrite IH.
Qed.

(** What the text stage writes, the rendering stage reads back: from a
    book file that holds the entries of well-formed records, written
    with their metadata lines, the frame is made of these records, in
    their order, and then filtered. *)
Theorem written_records_are_read_back (records : list row) :
  Forall renderable records →
  create_df_from_highlights_list (paragraph (book_text true records))
  = filter_repeated_highlights records.
Proof.
  intros H. unfold create_df_from_highlights_list.
  rewrite paragraph_book_text by done.
  assert (filter (λ string, string ≠ str "..." ∧ string ≠ [])
            (mjoin ((λ r, [highlight r; meta r; []; str "..."; []]) <$> records) ++ [[]])
          = mjoin ((λ r, [highlight r; meta r]) <$> records)) as ->.
  { rewrite filter_app. rewrite (filter_cons_False _ []) by tauto.
    rewrite filter_nil, app_nil_r.
    induction H as [|r records (_ & _ & Hne & Hdots & _ & Hm & _) _ IH]; [done|].
    apply search_meta_line in Hm as [Hm1 Hm2].
    rewrite !fmap_cons. simpl. rewrite filter_cons_True by done.
    rewrite filter_cons_True by done. rewrite filter_cons_False by tauto.
    rewrite filter_cons_False by tauto. rewrite filter_cons_False by tauto.
    by rewrite IH. }
  rewrite sort_lines_records by done. unfold mbind at 1, result_bind at 1.
  rewrite !app_nil_r, !reverse_involutive, DataFrame_columns. done.
Qed.

Lemma paragraph_book_text_plain (records : list row) :
  Forall (λ r, NL ∉ highlight r) records →
  paragraph (book_text false records)
  = mjoin ((λ r, [highlight r; []; str "..."; []]) <$> records) ++ [[]].
Proof.
  unfold paragraph, book_text.
  induction 1 as [|r records Hb _ IH]; [done|].
  rewrite !fmap_cons. simpl. rewrite entry_without_meta.
  rewrite split_line by done.
  rewrite split_blank_line. rewrite split_line by apply dots_no_newline.
  rewrite split_blank_line. by rewrite IH.
Qed.

Lemma sort_lines_bodies (bodies : list text) m d t :
  Forall (λ b, search_meta b = false) bodies →
  sort_lines bodies m d t = Ok (m, d, reverse bodies ++ t).
Proof.
  intros H. revert t. induction H as [|b bodies Hb _ IH]; intros t; [done|].
  simpl. rewrite Hb, IH. by rewrite reverse_cons, <- app_assoc.
Qed.

(** A book file written without the metadata lines cannot be rendered
    as a PDF: the frame has a column of bodies and empty columns of
    metadata and dates, and making it raises [ValueError]. *)
Theorem records_without_metadata_are_not_read (records : list row) :
  records ≠ [] →
  Forall (λ r, (NL ∉ highlight r) ∧ highlight r ≠ [] ∧ highlight r ≠ str "..."
               ∧ search_meta (highlight r) = false) records →
  create_df_from_highlights_list (paragraph (book_text false records))
  = Raise ValueError.
Proof.
  intros Hne H. unfold create_df_from_highlights_list.
  rewrite paragraph_book_text_plain by (eapply Forall_impl; [done|]; by intros r [? _]).
  assert (filter (λ string, string ≠ str "..." ∧ string ≠ [])
            (mjoin ((λ r, [highlight r; []; str "..."; []]) <$> records) ++ [[]])
          = highlight <$> records) as ->.
  { clear Hne. rewrite filter_app. rewrite (filter_cons_False _ []) by tauto.
    rewrite filter_nil, app_nil_r.
    induction H as [|r records (_ & Hb & Hdots & _) _ IH]; [done|].
    rewrite !fmap_cons. simpl. rewrite filter_cons_True by done.
    rewrite filter_cons_False by tauto. rewrite filter_cons_False by tauto.
    rewrite filter_cons_False by tauto. by rewrite IH. }
  rewrite sort_lines_bodies.
  2:{ apply Forall_fmap. eapply Forall_impl; [done|]. by intros r (_ & _ & _ & ?). }
  unfold mbind at 1, result_bind at 1.
  rewrite app_nil_r, reverse_involutive.
  destruct records; [done|]. reflexivity.
Qed.

End FrameExtras.

Lemma two_records_renderable : Forall (renderable (U := ascii_only)) two_records.
Proof.
  repeat constructor; try by_compute; try not_in_text.
Qed.

Lemma create_df_exceptions_witness :
  (ValueError = ValueError ∨ ValueError = IndexError)
  ∧ create_df_from_highlights_list (U := ascii_only) [[]; str "..."; []]
    = Raise ValueError.
Proof.
  split.
  - apply (create_df_exceptions (U := ascii_only) lines_with_bad_timestamp). by_compute.
  - apply (create_df_exceptions (U := ascii_only) [[]; str "..."; []]).
    constructor; [by left|]. constructor; [by right|].
    constructor; [by left|]. constructor.
Defined.

Lemma written_records_are_read_back_witness :
  create_df_from_highlights_list (U := ascii_only) (paragraph (book_text true two_records))
  = filter_repeated_highlights two_records.
Proof.
  apply (written_records_are_read_back (U := ascii_only)), two_records_renderable.
Defined.

Lemma records_without_metadata_witness :
  create_df_from_highlights_list (U := ascii_only) (paragraph (book_text false two_records))
  = Raise ValueError.
Proof.
  apply (records_without_metadata_are_not_read (U := ascii_only)); [done|].
  repeat constructor; try by_compute; try not_in_text.
Defined.

(** The file that a run makes for a new book holds the entries of its
    records: the text that the frame is read back from. *)
Example new_book_file_holds_entries :
  let w := World (Some (export_of
                          [chunk_of "Book A" (meta_at "12" "14:32:10") "The quick brown fox";
                           chunk_of "Book A" (meta_at "40" "18:00:00")
                             "Something else entirely"]))
                 None [] in
  files (parse_clippings (U := ascii_only) (str "out") true w).1 !! str "Book A.txt"
  = Some (book_text true two_records).
Proof. by_compute. Qed.

(** * Further properties of the similarity *)

Lemma lev_sym (s t : text) : lev s t = lev t s.
Proof.
  revert t. induction s as [|a s IHs]; intros t.
  - by rewrite lev_nil_r.
  - induction t as [|b t IHt].
    + by rewrite lev_nil_r.
    + rewrite !lev_cons_cons. rewrite (IHs (b :: t)), IHt, (IHs t).
      unfold chr_eqb. rewrite (N.eqb_sym b a). unfold min3. lia.
Qed.

Lemma lev_same (s : text) : lev s s = 0.
Proof.
  induction s as [|a s IH]; [done|]. rewrite lev_cons_cons, IH.
  unfold chr_eqb. rewrite N.eqb_refl. unfold min3. lia.
Qed.

(** The similarity does not depend on the order of the two bodies. *)
Theorem calculate_similarity_symmetric (string1 string2 : option text) :
  calculate_similarity string1 string2 = calculate_similarity string2 string1.
Proof.
  destruct string1 as [a|], string2 as [b|]; try done.
  unfold calculate_similarity. rewrite !distance_lev, (lev_sym b a).
  by rewrite (Nat.max_comm (length b) (length a)).
Qed.

(** ** Binary64 facts *)

Lemma div_eucl_mul (m : positive) (k : Z) :
  Z.div_eucl (Z.pos m * k) (Z.pos m) = (k, 0%Z).
Proof.
  rewrite (surjective_pairing (Z.div_eucl _ _)).
  change (fst (Z.div_eucl ?a ?b)) with (a / b)%Z.
  change (snd (Z.div_eucl ?a ?b)) with (a mod b)%Z.
  rewrite (Z.mul_comm (Z.pos m) k), Z.div_mul, Z.mod_mul by lia. done.
Qed.

(** A finite number that is not zero, divided by itself, is 1. *)
Lemma float_div_self (x : float) s m e :
  Prim2SF x = S754_finite s m e → (x / x)%float = 1%float.
Proof.
  intros H. apply Prim2SF_inj. rewrite FloatAxioms.div_spec, H.
  unfold SF64div, SFdiv, SFdiv_core_binary.
  replace (Zdigits2 (Z.pos m) + e - (Zdigits2 (Z.pos m) + e))%Z with 0%Z by lia.
  replace (e - e)%Z with 0%Z by lia.
  change (Z.min (fexp prec emax 0) 0) with (-53)%Z.
  change (0 - -53)%Z with 53%Z. cbv iota beta.
  rewrite Z.shiftl_mul_pow2 by lia. rewrite div_eucl_mul.
  unfold new_location. destruct (Z.even (Z.pos m)); destruct s; reflexivity.
Qed.

Lemma float_zero_div (x : float) m e :
  Prim2SF x = S754_finite false m e → (0 / x)%float = 0%float.
Proof. intros H. apply Prim2SF_inj. rewrite FloatAxioms.div_spec, H. reflexivity. Qed.

Lemma digits2_pos_iter (p : positive) (k : positive) :
  digits2_pos (Pos.iter xO p k) = (digits2_pos p + k)%positive.
Proof.
  induction k using Pos.peano_ind.
  - simpl. lia.
  - rewrite Pos.iter_succ. simpl. rewrite IHk. lia.
Qed.

Lemma digits2_pos_bound (p : positive) (d : Z) :
  (0 <= d)%Z → (Z.pos p < 2 ^ d)%Z → (Z.pos (digits2_pos p) <= d)%Z.
Proof.
  revert d. induction p as [p IH|p IH|]; intros d Hd Hp; simpl.
  - assert (d = 0 ∨ 0 < d)%Z as [->|Hpos] by lia; [simpl in Hp; lia|].
    replace d with (Z.succ (d - 1)) in Hp by lia. rewrite Z.pow_succ_r in Hp by lia.
    specialize (IH (d - 1)%Z ltac:(lia) ltac:(lia)). lia.
  - assert (d = 0 ∨ 0 < d)%Z as [->|Hpos] by lia; [simpl in Hp; lia|].
    replace d with (Z.succ (d - 1)) in Hp by lia. rewrite Z.pow_succ_r in Hp by lia.
    specialize (IH (d - 1)%Z ltac:(lia) ltac:(lia)). lia.
  - assert (d = 0 ∨ 0 < d)%Z as [->|Hpos] by lia; [simpl in Hp; lia|]. lia.
Qed.

Lemma fexp_small (d e : Z) :
  (1 <= d <= 53)%Z → e = (d - 53)%Z → (fexp prec emax (d + 0) - 0 = e)%Z.
Proof.
  intros Hd ->. unfold fexp, emin. change prec with 53%Z. change emax with 1024%Z. lia.
Qed.

(** An integer below 2^53 is a binary64 number. *)
Lemma binary_round_finite (p : positive) :
  (Z.pos p < 2 ^ 53)%Z →
  ∃ m e, binary_round prec emax false p 0 = S754_finite false m e.
Proof.
  intros Hp. pose proof (digits2_pos_bound p 53 ltac:(lia) Hp) as Hd.
  unfold binary_round.
  set (d := digits2_pos p) in *.
  assert (fexp prec emax (Z.pos d + 0) = Z.pos d - 53)%Z as ->.
  { unfold fexp, emin. change prec with 53%Z. change emax with 1024%Z. lia. }
  unfold shl_align.
  destruct (Z.pos d - 53 - 0)%Z as [|k|k] eqn:Hk; [|lia|].
  - assert (Z.pos d = 53)%Z as Hd53 by lia.
    unfold binary_round_aux, shr_fexp. simpl Zdigits2. fold d.
    assert (fexp prec emax (Z.pos d + 0) - 0 = 0)%Z as ->.
    { unfold fexp, emin. change prec with 53%Z. change emax with 1024%Z. lia. }
    simpl. fold d.
    assert (fexp prec emax (Z.pos d + 0) - 0 = 0)%Z as ->.
    { unfold fexp, emin. change prec with 53%Z. change emax with 1024%Z. lia. }
    simpl. eauto.
  - assert (Z.pos (digits2_pos (Pos.iter xO p k)) = 53)%Z as Hd53
      by (rewrite digits2_pos_iter; fold d; lia).
    unfold binary_round_aux, shr_fexp. simpl Zdigits2. rewrite Hd53.
    assert (fexp prec emax (53 + (Z.pos d - 53)) - (Z.pos d - 53) = 0)%Z as ->.
    { unfold fexp, emin. change prec with 53%Z. change emax with 1024%Z. lia. }
    simpl. rewrite Hd53.
    assert (fexp prec emax (53 + (Z.pos d - 53)) - (Z.pos d - 53) = 0)%Z as ->.
    { unfold fexp, emin. change prec with 53%Z. change emax with 1024%Z. lia. }
    simpl.
    assert ((Z.pos d - 53 <=? emax - prec) = true)%Z as ->.
    { apply Z.leb_le. change prec with 53%Z. change emax with 1024%Z. lia. }
    eauto.
Qed.

Lemma float_of_nat_finite (n : nat) :
  0 < n → (Z.of_nat n < 2 ^ 53)%Z →
  ∃ m e, Prim2SF (float_of_nat n) = S754_finite false m e.
Proof.
  intros Hn Hlt. unfold float_of_nat. rewrite of_uint63_spec, of_Z_spec.
  rewrite Z.mod_small.
  2:{ split; [lia|]. eapply Z.lt_trans; [done|]. reflexivity. }
  destruct (Z.of_nat n) as [|p|p] eqn:Hz; [lia| |lia].
  simpl. by apply binary_round_finite.
Qed.

(** Equal bodies have similarity 1 (for bodies of fewer than 2^53
    characters, whose length binary64 represents). *)
Theorem similarity_of_equal_bodies (s : text) :
  s ≠ [] → (Z.of_nat (length s) < 2 ^ 53)%Z →
  calculate_similarity (Some s) (Some s) = Ok 1%float.
Proof.
  intros Hs Hlen. unfold calculate_similarity.
  rewrite distance_lev, lev_same, Nat.max_id.
  destruct (length s =? 0)%nat eqn:E; [apply Nat.eqb_eq in E; by destruct s|].
  destruct (float_of_nat_finite (length s)) as (m & e & Hfin);
    [destruct s; simpl; [done|lia]|done|].
  change (float_of_nat 0) with 0%float. by rewrite (float_zero_div _ m e).
Qed.

(** An empty body next to one that is not empty has similarity 0. *)
Theorem similarity_with_one_empty_body (b : text) :
  b ≠ [] → (Z.of_nat (length b) < 2 ^ 53)%Z →
  calculate_similarity (Some []) (Some b) = Ok 0%float
  ∧ calculate_similarity (Some b) (Some []) = Ok 0%float.
Proof.
  intros Hb Hlen.
  assert (calculate_similarity (Some []) (Some b) = Ok 0%float) as H.
  { unfold calculate_similarity. rewrite distance_lev. simpl lev. simpl length.
    rewrite Nat.max_0_l.
    destruct (length b =? 0)%nat eqn:E; [apply Nat.eqb_eq in E; by destruct b|].
    destruct (float_of_nat_finite (length b)) as (m & e & Hfin);
      [destruct b; simpl; [done|lia]|done|].
    by rewrite (float_div_self _ false m e). }
  split; [done|]. by rewrite calculate_similarity_symmetric.
Qed.

Lemma similarity_of_equal_bodies_witness :
  calculate_similarity (Some (str "The quick brown fox")) (Some (str "The quick brown fox"))
  = Ok 1%float.
Proof. apply similarity_of_equal_bodies; by_compute. Defined.

Lemma similarity_with_one_empty_body_witness :
  calculate_similarity (Some []) (Some (str "The quick brown fox")) = Ok 0%float
  ∧ calculate_similarity (Some (str "The quick brown fox")) (Some []) = Ok 0%float.
Proof. apply similarity_with_one_empty_body; by_compute. Defined.

(** * The line breaks of the page *)

Lemma insert_line_break_counts (n fuel : nat) (pdf_file : list fpdf_call) :
  n < fuel →
  insert_line_break_in_pdf fuel pdf_file (Z.of_nat n)
  = Some (pdf_file ++ replicate n (multi_cell 0 5 [] 0)).
Proof.
  revert fuel pdf_file. induction n as [|n IH]; intros [|fuel] pdf_file Hlt; try lia.
  - simpl. by rewrite app_nil_r.
  - cbn [insert_line_break_in_pdf].
    rewrite (proj2 (Z.eqb_neq (Z.of_nat (S n)) 0)) by lia.
    replace (Z.of_nat (S n) - 1)%Z with (Z.of_nat n) by lia.
    rewrite IH by lia. by rewrite <- app_assoc.
Qed.

Lemma insert_line_break_negative (fuel : nat) (pdf_file : list fpdf_call) (num_breaks : Z) :
  (num_breaks < 0)%Z → insert_line_break_in_pdf fuel pdf_file num_breaks = None.
Proof.
  revert pdf_file num_breaks. induction fuel as [|fuel IH]; intros pdf_file n Hn; [done|].
  simpl. rewrite (proj2 (Z.eqb_neq n 0)) by lia. apply IH. lia.
Qed.

(** For a count that is not negative the loop ends after that many
    empty cells; for a negative count it never ends, since the count
    moves away from 0. *)
Theorem insert_line_break_terminates_iff (pdf_file : list fpdf_call) (num_breaks : Z) :
  ((0 <= num_breaks)%Z →
   ∀ fuel, Z.to_nat num_breaks < fuel →
     insert_line_break_in_pdf fuel pdf_file num_breaks
     = Some (pdf_file ++ replicate (Z.to_nat num_breaks) (multi_cell 0 5 [] 0)))
  ∧ ((num_breaks < 0)%Z →
     ∀ fuel, insert_line_break_in_pdf fuel pdf_file num_breaks = None).
Proof.
  split.
  - intros Hn fuel Hfuel. rewrite <- (Z2Nat.id num_breaks) at 1 by done.
    by apply insert_line_break_counts.
  - intros Hn fuel. by apply insert_line_break_negative.
Qed.

Lemma insert_line_break_witness :
  insert_line_break_in_pdf 4 [] 3
  = Some (replicate 3 (multi_cell 0 5 [] 0))
  ∧ insert_line_break_in_pdf 1000 [] (-1) = None.
Proof.
  split.
  - apply (proj1 (insert_line_break_terminates_iff [] 3)); [lia|simpl; lia].
  - apply (proj2 (insert_line_break_terminates_iff [] (-1))). lia.
Defined.

(** * The files that a run touches *)

Section TouchedFiles.
Context `{U : Unicode}.
Variable output_directory : text.
Variable include_clip_meta : bool.

#[local] Abbreviation parse_clippings := (parse_clippings output_directory include_clip_meta).
#[local] Abbreviation classify := (classify output_directory).
#[local] Abbreviation pure_step := (pure_step output_directory include_clip_meta).
#[local] Abbreviation pure_loop := (pure_loop output_directory include_clip_meta).

Lemma classify_name h name body clip_meta :
  classify h = Clipping name body clip_meta →
  ∃ title, name = remove_chars title output_directory ++ str ".txt".
Proof.
  unfold classify. destruct (_ <? 3)%nat; [done|].
  destruct (_ !! 3) as [b|]; [|done]. case_bool_decide; [done|].
  destruct (_ !! 0) as [[|first rest]|]; try done.
  destruct (_ !! 1); [|done]. intros [= <- _ _]. eauto.
Qed.

Lemma pure_step_other out d h d' r n :
  pure_step out d h = (d', r) →
  (∀ body clip_meta, classify h ≠ Clipping n body clip_meta) →
  d' !! n = d !! n.
Proof.
  unfold pure_step. destruct (classify h) as [| |name body clip_meta] eqn:Hc;
    [by intros [= <- _]..|].
  intros Hstep Hn. assert (name ≠ n) as Hne by (intros ->; by eapply Hn).
  destruct (_ && _).
  - injection Hstep as <- _. by rewrite lookup_insert_ne.
  - destruct (d !! name) as [t|]; injection Hstep as <- _; [|done].
    destruct (contains body t); [done|]. by rewrite lookup_insert_ne.
Qed.

Lemma pure_step_new out d h d' r n :
  pure_step out d h = (d', r) → n ∈ dom d' → n ∉ dom d →
  ∃ title, n = remove_chars title output_directory ++ str ".txt".
Proof.
  unfold pure_step. destruct (classify h) as [| |name body clip_meta] eqn:Hc;
    [by intros [= <- _]..|].
  intros Hstep Hin Hnot. assert (n = name) as ->; [|by eapply classify_name].
  destruct (_ && _).
  - injection Hstep as <- _. rewrite dom_insert_L in Hin. set_solver.
  - destruct (d !! name) as [t|]; injection Hstep as <- _; [|done].
    destruct (contains body t); [done|]. rewrite dom_insert_L in Hin. set_solver.
Qed.

Lemma pure_loop_other chunks out d n :
  Forall (λ h, ∀ body clip_meta, classify h ≠ Clipping n body clip_meta) chunks →
  (pure_loop out d chunks).1 !! n = d !! n.
Proof.
  intros H. revert out d. induction H as [|h chunks Hh _ IH]; intros out d; [done|].
  simpl. destruct (pure_step out d h) as [d1 [out1|e]] eqn:Hstep.
  - rewrite IH. by eapply pure_step_other.
  - simpl. by eapply pure_step_other.
Qed.

Lemma pure_loop_new chunks out d n :
  n ∈ dom (pure_loop out d chunks).1 → n ∉ dom d →
  ∃ title, n = remove_chars title output_directory ++ str ".txt".
Proof.
  revert out d. induction chunks as [|h chunks IH]; intros out d; simpl; [done|].
  destruct (pure_step out d h) as [d1 [out1|e]] eqn:Hstep; simpl.
  - intros Hin Hnot. destruct (decide (n ∈ dom d1)) as [Hd1|Hd1].
    + by eapply pure_step_new.
    + by eapply IH.
  - intros Hin Hnot. by eapply pure_step_new.
Qed.

(** A run leaves alone every file that is not the file of a record of
    the source: its text after the run is its text before. *)
Theorem parse_clippings_touches_only_its_books (w : world) (content n : text) :
  source w = Some content →
  Forall (λ h, ∀ body clip_meta, classify h ≠ Clipping n body clip_meta)
         (split (str "==========") content) →
  files (parse_clippings w).1 !! n = files w !! n.
Proof.
  intros Hsrc Hn.
  pose proof (parse_clippings_run output_directory include_clip_meta w) as Hrun.
  rewrite Hsrc in Hrun. case_bool_decide; [by rewrite Hrun|].
  destruct Hrun as (w' & -> & _ & Hd). simpl. unfold files at 1. rewrite Hd. simpl.
  by apply pure_loop_other.
Qed.

(** The files that a run makes have plain names: the name is a
    sanitized title followed by [".txt"], with no path separator and no
    other dot, so the file is an entry of the output directory itself
    whatever the titles in the source are. *)
Theorem parse_clippings_makes_plain_files (w : world) (n : text) :
  n ∈ dom (files (parse_clippings w).1) → n ∉ dom (files w) →
  ∃ stem, n = stem ++ str ".txt" ∧ (47%N ∉ stem) ∧ (46%N ∉ stem).
Proof.
  pose proof (parse_clippings_run output_directory include_clip_meta w) as Hrun.
  assert (∀ title, ∃ stem,
            remove_chars title output_directory ++ str ".txt" = stem ++ str ".txt"
            ∧ (47%N ∉ stem) ∧ (46%N ∉ stem)) as Hplain.
  { intros title. eexists. split; [done|].
    split; intros Hc%remove_chars_filename_chars; by vm_compute in Hc. }
  destruct (source w) as [content|].
  - case_bool_decide; [rewrite Hrun; set_solver|].
    destruct Hrun as (w' & -> & _ & Hd). simpl. unfold files at 1. rewrite Hd. simpl.
    intros Hin Hnot. destruct (pure_loop_new _ _ _ _ Hin Hnot) as [title ->].
    apply Hplain.
  - rewrite Hrun. set_solver.
Qed.

End TouchedFiles.

Lemma parse_clippings_touches_only_its_books_witness :
  files (parse_clippings (U := ascii_only) (str "out") true
           (World (Some (export_of [chunk_of "Book B" "meta" "Another one"]))
                  (Some hello_world_dir) [])).1 !! str "Book A.txt"
  = Some (str "Hello world" ++ [NL]).
Proof.
  rewrite (parse_clippings_touches_only_its_books (U := ascii_only) (str "out") true _
             (export_of [chunk_of "Book B" "meta" "Another one"]) (str "Book A.txt")).
  - reflexivity.
  - reflexivity.
  - vm_compute. repeat constructor; intros ? ?; discriminate.
Defined.

(** A title that looks like a path makes a file in the output
    directory, under a name without separators or dots. *)
Lemma parse_clippings_makes_plain_files_witness :
  ∃ stem, str "etcpasswd.txt" = stem ++ str ".txt" ∧ (47%N ∉ stem) ∧ (46%N ∉ stem).
Proof.
  apply (parse_clippings_makes_plain_files (U := ascii_only) (str "out") true
           (World (Some (export_of [chunk_of "../../etc/passwd" "meta" "Another one"]))
                  (Some hello_world_dir) [])).
  - apply elem_of_dom. eexists. by_compute.
  - apply not_elem_of_dom. by_compute.
Defined.

(** * What a run leaves in a book file *)

Section PersistedFacts.
Context `{U : Unicode}.
Variable output_directory : text.
Variable include_clip_meta : bool.

#[local] Abbreviation classify := (classify output_directory).
#[local] Abbreviation pure_step := (pure_step output_directory include_clip_meta).
#[local] Abbreviation pure_loop := (pure_loop output_directory include_clip_meta).
#[local] Abbreviation records_of := (records_of output_directory).
#[local] Abbreviation exact_step := (exact_step include_clip_meta).
#[local] Abbreviation persisted := (persisted include_clip_meta).
#[local] Abbreviation entry := (entry include_clip_meta).

Lemma records_of_cons name h chunks :
  records_of name (h :: chunks) = records_of name [h] ++ records_of name chunks.
Proof.
  unfold records_of. simpl. destruct (classify h) as [| |n b m]; [done..|].
  by destruct (decide (n = name)).
Qed.

(** A name that no chunk is a record for has no records. *)
Lemma records_of_other name chunks :
  Forall (λ h, ∀ body clip_meta, classify h ≠ Clipping name body clip_meta) chunks →
  records_of name chunks = [].
Proof.
  induction 1 as [|h chunks Hh _ IH]; [done|].
  rewrite records_of_cons, IH, app_nil_r. unfold records_of. simpl.
  destruct (classify h) as [| |n b m] eqn:Hc; [done..|].
  destruct (decide (n = name)) as [->|]; [|done]. by destruct (Hh b m).
Qed.

(** One step of the loop is one step of the exact-containment check on
    the file of the record, and leaves every other file as it is. *)
Lemma pure_step_persisted out d h d1 out1 name :
  names_known out d →
  pure_step out d h = (d1, Ok out1) →
  d1 !! name = persisted (d !! name) (records_of name [h]).
Proof.
  intros Hk Hstep.
  destruct (classify h) as [| |n b m] eqn:Hc.
  - unfold pure_step in Hstep. rewrite Hc in Hstep. injection Hstep as <- _.
    unfold records_of. simpl. by rewrite Hc.
  - unfold pure_step in Hstep. by rewrite Hc in Hstep.
  - destruct (decide (n = name)) as [->|Hne].
    + unfold records_of. simpl. rewrite Hc, decide_True by done. simpl.
      destruct (classify_clipping _ _ _ _ _ Hc) as [Hslash _].
      unfold pure_step in Hstep. rewrite Hc in Hstep.
      destruct (bool_decide (name ∉ out) && bool_decide (name ∉ dom d)) eqn:Hnew.
      * apply andb_true_iff in Hnew as [_ Hdom%bool_decide_eq_true].
        apply not_elem_of_dom in Hdom. injection Hstep as <- _.
        by rewrite lookup_insert_eq, Hdom.
      * assert (name ∈ dom d) as [t Ht]%elem_of_dom.
        { apply andb_false_iff in Hnew as [H|H]; apply bool_decide_eq_false in H.
          - apply dec_stable in H. by apply Hk.
          - by apply dec_stable in H. }
        rewrite Ht in Hstep. injection Hstep as <- _. rewrite Ht. simpl.
        destruct (contains b t); [done|]. by rewrite lookup_insert_eq.
    + rewrite (records_of_other name [h]).
      * eapply pure_step_other; [done|]. intros b' m'. rewrite Hc. congruence.
      * constructor; [|constructor]. intros b' m'. rewrite Hc. congruence.
Qed.

(** The loop, file by file: the text of a file after the loop is what
    the exact-containment check makes of the text before and the
    records of the file, in the order of the chunks. *)
Lemma pure_loop_persisted chunks out d d' out' name :
  names_known out d →
  pure_loop out d chunks = (d', Ok out') →
  d' !! name = persisted (d !! name) (records_of name chunks).
Proof.
  revert out d. induction chunks as [|h chunks IH]; intros out d Hk Hloop.
  - by injection Hloop as <- _.
  - simpl in Hloop. destruct (pure_step out d h) as [d1 [out1|e]] eqn:Hstep; [|done].
    destruct (pure_step_facts _ _ _ _ _ _ _ Hk Hstep) as [_ (Hk1 & _ & _)].
    rewrite (IH _ _ Hk1 Hloop), records_of_cons.
    rewrite (pure_step_persisted _ _ _ _ _ name Hk Hstep).
    unfold persisted. by rewrite foldl_app.
Qed.

(** The loop returns when no chunk is malformed. *)
Lemma pure_loop_returns chunks out d :
  names_known out d →
  Forall (λ h, classify h ≠ Malformed) chunks →
  ∃ out', (pure_loop out d chunks).2 = Ok out'.
Proof.
  intros Hk Hchunks. pose proof (pure_loop_outcome output_directory include_clip_meta chunks out d Hk) as H.
  destruct (pure_loop out d chunks).2 as [out'|e]; [by eexists|].
  destruct H as [_ H]. apply Exists_exists in H as (h & Hin & Hm).
  rewrite Forall_forall in Hchunks. destruct (Hchunks h Hin).
  by apply classify_malformed.
Qed.

End PersistedFacts.

(** * The lines of a book file *)

Section BookLines.
Context `{U : Unicode}.

(** The lines of a book file that are left after the empty lines and
    the separators are taken out: body and metadata line of every
    record. *)
Lemma filtered_lines_of_book_text (records : list row) :
  Forall renderable records →
  filter (λ string, string ≠ str "..." ∧ string ≠ [])
         (paragraph (book_text true records))
  = mjoin ((λ r, [highlight r; meta r]) <$> records).
Proof.
  intros H. rewrite paragraph_book_text by done.
  rewrite filter_app. rewrite (filter_cons_False _ []) by tauto.
  rewrite filter_nil, app_nil_r.
  induction H as [|r records (_ & _ & Hne & Hdots & _ & Hm & _) _ IH]; [done|].
  apply search_meta_line in Hm as [Hm1 Hm2].
  rewrite !fmap_cons. simpl. rewrite filter_cons_True by done.
  rewrite filter_cons_True by done. rewrite filter_cons_False by tauto.
  rewrite filter_cons_False by tauto. rewrite filter_cons_False by tauto.
  by rewrite IH.
Qed.

(** The body lines of a book file are the bodies of its records. *)
Lemma body_lines_book_text (records : list row) :
  Forall renderable records →
  body_lines (book_text true records) = highlight <$> records.
Proof.
  intros H. unfold body_lines. rewrite paragraph_book_text by done.
  rewrite filter_app. rewrite (filter_cons_False _ []) by tauto.
  rewrite filter_nil, app_nil_r.
  induction H as [|r records (_ & _ & Hne & Hdots & Hb & Hm & _) _ IH]; [done|].
  rewrite !fmap_cons. simpl. rewrite filter_cons_True by done.
  rewrite filter_cons_False by (rewrite Hm; by intros (_ & _ & ?)).
  rewrite filter_cons_False by tauto.
  rewrite filter_cons_False by tauto. rewrite filter_cons_False by tauto.
  by rewrite IH.
Qed.

(** The frame that is made of the lines of a book file. *)
Lemma frame_of_book_text (records : list row) :
  records ≠ [] →
  Forall renderable records →
  create_df_from_highlights_list (paragraph (book_text true records))
  = Ok (collapse records).
Proof.
  intros Hne H. unfold create_df_from_highlights_list.
  rewrite filtered_lines_of_book_text by done.
  rewrite sort_lines_records by done. unfold mbind at 1, result_bind at 1.
  rewrite !app_nil_r, !reverse_involutive, DataFrame_columns.
  unfold mbind, result_bind. destruct records as [|r records]; [done|].
  apply filter_repeated_highlights_collapse, no_empty_pair_nonempty.
  eapply Forall_impl; [done|]. by intros r' (_ & _ & ? & _).
Qed.

End BookLines.

(** * The text stage and the rendering stage *)

Section Persistence.
Context `{U : Unicode}.
Variable output_directory : text.

(** C2, as the code has it. What is written to a book file is the
    output of the exact-containment check alone: after a run that
    returns, the text of every file is what that check makes of the
    text before the run and of the records of the file, in the order of
    the source; similarity and timestamps have no part in it.  So, for
    a source whose chunks hold three records for one book, the first
    two near-duplicates five seconds apart and the third distinct, and
    one record for a second book, no body being a substring of the text
    written before it, and neither file being there before: the run
    makes these two files, the first with three body lines and the
    second with one.  The near-duplicates are collapsed when the file
    is read for rendering: the frame made from the lines of the first
    file has two rows, the later near-duplicate and the distinct
    record. *)
Theorem persisted_by_exact_containment_only (include_clip_meta : bool) (w : world)
    (content : text) :
  source w = Some content →
  let chunks := split (str "==========") content in
  let run := parse_clippings output_directory include_clip_meta w in
  (∀ output_files name,
     run.2 = Ok output_files →
     files run.1 !! name
     = persisted include_clip_meta (files w !! name)
                 (records_of output_directory name chunks))
  ∧ (∀ (a1 a2 a3 b1 : row) (book_a book_b : text),
       include_clip_meta = true →
       output_directory ≠ [] →
       book_a ≠ book_b →
       files w !! book_a = None →
       files w !! book_b = None →
       Forall (λ h, match classify output_directory h with
                    | Skipped => True
                    | Malformed => False
                    | Clipping name _ _ => name = book_a ∨ name = book_b
                    end) chunks →
       records_of output_directory book_a chunks
       = [(highlight a1, meta a1); (highlight a2, meta a2); (highlight a3, meta a3)] →
       records_of output_directory book_b chunks = [(highlight b1, meta b1)] →
       Forall renderable [a1; a2; a3; b1] →
       (0x1.3333333333333p-2 <? similarity (highlight a1) (highlight a2))%float = true →
       (seconds (date a2) - seconds (date a1) = 5)%Z →
       redundant a2 a3 = false →
       contains (highlight a2) (entry true (highlight a1) (meta a1)) = false →
       contains (highlight a3)
                (entry true (highlight a1) (meta a1) ++ entry true (highlight a2) (meta a2))
       = false →
       run.2 = Ok {[os_path_join output_directory book_a;
                    os_path_join output_directory book_b]}
       ∧ dom (files run.1) = {[book_a; book_b]} ∪ dom (files w)
       ∧ body_lines <$> files run.1 !! book_a
         = Some [highlight a1; highlight a2; highlight a3]
       ∧ body_lines <$> files run.1 !! book_b = Some [highlight b1]
       ∧ (create_df_from_highlights_list ∘ paragraph) <$> files run.1 !! book_a
         = Some (Ok [a2; a3])).
Proof.
  intros Hsrc chunks run.
  pose proof (parse_clippings_run output_directory include_clip_meta w) as Hrun.
  rewrite Hsrc in Hrun. fold chunks in Hrun.
  destruct (pure_loop output_directory include_clip_meta ∅ (files w) chunks)
    as [d' r] eqn:Hloop.
  assert (∀ output_files name,
            output_directory ≠ [] → r = Ok output_files →
            d' !! name
            = persisted include_clip_meta (files w !! name)
                        (records_of output_directory name chunks)) as Hfile.
  { intros out name _ ->. eapply pure_loop_persisted; [|done]. apply names_known_empty. }
  split.
  - intros out name Hok. case_bool_decide as Hout.
    + subst run. rewrite Hrun in Hok. done.
    + destruct Hrun as (w' & Hw' & _ & Hd). subst run. rewrite Hw' in *. simpl in *.
      unfold files at 1. rewrite Hd. simpl. by eapply Hfile.
  - intros a1 a2 a3 b1 book_a book_b -> Hout Hab Ha Hb Hchunks Hra Hrb Hrend
      Hsim Hdt Hdist Hc2 Hc3.
    rewrite bool_decide_eq_false_2 in Hrun by done.
    destruct Hrun as (w' & Hw' & _ & Hd). subst run. rewrite Hw'. simpl.
    assert (files w' = d') as -> by (unfold files; by rewrite Hd).
    destruct (pure_loop_returns output_directory true chunks ∅ (files w)) as [out Hr].
    { apply names_known_empty. }
    { eapply Forall_impl; [done|]. intros h Hh Hm. simpl in Hh. by rewrite Hm in Hh. }
    rewrite Hloop in Hr. simpl in Hr. subst r.
    destruct (pure_loop_facts _ _ _ _ _ _ _ (names_known_empty _) Hloop)
      as [_ [_ Hcreated]].
    assert (d' !! book_a = Some (book_text true [a1; a2; a3])) as Hfa.
    { rewrite (Hfile out) by done. rewrite Ha, Hra.
      cbn [persisted foldl exact_step fst snd]. rewrite Hc2.
      cbn [exact_step fst snd]. rewrite Hc3.
      unfold book_text. simpl. by rewrite app_nil_r, <- !app_assoc. }
    assert (d' !! book_b = Some (book_text true [b1])) as Hfb.
    { rewrite (Hfile out) by done. rewrite Hb, Hrb.
      unfold book_text. simpl. by rewrite app_nil_r. }
    assert (∀ name, name ≠ book_a → name ≠ book_b → d' !! name = files w !! name)
      as Hother.
    { intros name Hna Hnb. rewrite (Hfile out) by done.
      rewrite records_of_other; [done|]. eapply Forall_impl; [done|].
      intros h Hh body clip_meta Hc. simpl in Hh. rewrite Hc in Hh.
      by destruct Hh as [<-|<-]. }
    assert (dom d' = {[book_a; book_b]} ∪ dom (files w)) as Hdom.
    { apply set_eq. intros name.
      rewrite elem_of_union, elem_of_union, !elem_of_singleton, !elem_of_dom.
      destruct (decide (name = book_a)) as [->|Hna]; [rewrite Hfa; naive_solver|].
      destruct (decide (name = book_b)) as [->|Hnb]; [rewrite Hfb; naive_solver|].
      rewrite Hother by done. naive_solver. }
    apply Forall_cons in Hrend as [H1 Hrend]. apply Forall_cons in Hrend as [H2 Hrend].
    apply Forall_cons in Hrend as [H3 Hrend]. apply Forall_cons in Hrend as [H4 _].
    split; [|split; [done|split; [|split]]].
    + f_equal. rewrite Hcreated. unfold created. rewrite Hdom.
      apply not_elem_of_dom in Ha, Hb.
      replace (({[book_a; book_b]} ∪ dom (files w)) ∖ dom (files w))
        with ({[book_a; book_b]} : gset text) by set_solver.
      rewrite set_map_union_L, !set_map_singleton_L. set_solver.
    + rewrite Hfa. simpl. f_equal.
      apply (body_lines_book_text [a1; a2; a3]).
      by repeat (apply Forall_cons_2; [assumption|]).
    + rewrite Hfb. simpl. f_equal.
      apply (body_lines_book_text [b1]).
      by repeat (apply Forall_cons_2; [assumption|]).
    + rewrite Hfa. simpl. f_equal.
      rewrite (frame_of_book_text [a1; a2; a3]);
        [|done|by repeat (apply Forall_cons_2; [assumption|])].
      f_equal. simpl. unfold redundant at 1. rewrite Hsim, Hdt, Hdist. done.
Qed.

End Persistence.

Lemma persisted_by_exact_containment_witness :
  (parse_clippings (U := ascii_only) (str "out") true scenario_world).2
  = Ok {[os_path_join (str "out") (str "Book A.txt");
         os_path_join (str "out") (str "Book B.txt")]}
  ∧ dom (files (parse_clippings (U := ascii_only) (str "out") true scenario_world).1)
    = {[str "Book A.txt"; str "Book B.txt"]} ∪ dom (files scenario_world)
  ∧ body_lines
      <$> files (parse_clippings (U := ascii_only) (str "out") true scenario_world).1
          !! str "Book A.txt"
    = Some [highlight scenario_a1; highlight scenario_a2; highlight scenario_a3]
  ∧ body_lines
      <$> files (parse_clippings (U := ascii_only) (str "out") true scenario_world).1
          !! str "Book B.txt"
    = Some [highlight scenario_b1]
  ∧ (create_df_from_highlights_list (U := ascii_only) ∘ paragraph)
      <$> files (parse_clippings (U := ascii_only) (str "out") true scenario_world).1
          !! str "Book A.txt"
    = Some (Ok [scenario_a2; scenario_a3]).
Proof.
  apply (proj2 (persisted_by_exact_containment_only (U := ascii_only) (str "out") true
                  scenario_world scenario_source eq_refl)).
  - reflexivity.
  - discriminate.
  - discriminate.
  - reflexivity.
  - reflexivity.
  - vm_compute. repeat (apply Forall_cons_2; [first [exact I|by left|by right]|]).
    apply Forall_nil_2.
  - by_compute.
  - by_compute.
  - repeat (apply Forall_cons_2; [repeat split; first [by_compute|not_in_text]|]).
    apply Forall_nil_2.
  - unfold similarity. rewrite <- distance_lev. by_compute.
  - by_compute.
  - unfold redundant, similarity. rewrite <- distance_lev. by_compute.
  - by_compute.
  - by_compute.
Defined.
